(** * Fluid Glass: ripple simulation and glass-distortion display

    A shallow embedding of [src/components/Simulation.tsx]: the two fragment
    shaders ([SimulationShader], [DisplayShader]) and the [useFrame] callback
    that drives the ping-pong render targets, together with the hand-status
    producer of the application component.

    Numbers.  GLSL [float] and JavaScript [number] are idealised as real
    numbers: every arithmetic operation of the source is the exact operation
    on [R], so rounding, infinities and NaN are outside the model.  The GLSL
    built-ins are given by the reference formulas of the GLSL ES
    specification. *)

From Stdlib Require Import Reals Lra Lia Psatz ZArith List Bool.
Import ListNotations.
Open Scope R_scope.

(* ================================================================== *)
(** * GLSL vectors and built-in functions *)
(* ================================================================== *)

Module GLSL.

Record vec2 := Vec2 { x2 : R; y2 : R }.
Record vec3 := Vec3 { x3 : R; y3 : R; z3 : R }.
Record vec4 := Vec4 { r4 : R; g4 : R; b4 : R; a4 : R }.

(** Colour names of the components of a [vec3] ([.r], [.g], [.b]). *)
Definition r3 (v : vec3) : R := x3 v.
Definition g3 (v : vec3) : R := y3 v.
Definition b3 (v : vec3) : R := z3 v.

(** Swizzles [.xy] of a [vec3] and [.rgb] of a [vec4]. *)
Definition xy (v : vec3) : vec2 := Vec2 (x3 v) (y3 v).
Definition rgb (c : vec4) : vec3 := Vec3 (r4 c) (g4 c) (b4 c).

(** A [sampler2D] as the shader sees it: what [texture2D] returns at each
    coordinate, filtering and wrap mode of the bound texture included. *)
Definition sampler2D : Type := vec2 -> vec4.
Definition texture2D (s : sampler2D) (coord : vec2) : vec4 := s coord.

Definition add2 (a b : vec2) : vec2 := Vec2 (x2 a + x2 b) (y2 a + y2 b).
Definition sub2 (a b : vec2) : vec2 := Vec2 (x2 a - x2 b) (y2 a - y2 b).
Definition scale2 (a : vec2) (k : R) : vec2 := Vec2 (x2 a * k) (y2 a * k).
Definition add3 (a b : vec3) : vec3 :=
  Vec3 (x3 a + x3 b) (y3 a + y3 b) (z3 a + z3 b).
Definition scale3 (a : vec3) (k : R) : vec3 :=
  Vec3 (x3 a * k) (y3 a * k) (z3 a * k).

Definition dot2 (a b : vec2) : R := x2 a * x2 b + y2 a * y2 b.
Definition dot3 (a b : vec3) : R := x3 a * x3 b + y3 a * y3 b + z3 a * z3 b.
Definition length2 (a : vec2) : R := sqrt (dot2 a a).
Definition length3 (a : vec3) : R := sqrt (dot3 a a).
Definition distance (p0 p1 : vec2) : R := length2 (sub2 p0 p1).
Definition normalize (v : vec3) : vec3 :=
  Vec3 (x3 v / length3 v) (y3 v / length3 v) (z3 v / length3 v).

Definition max (a b : R) : R := Rmax a b.
Definition min (a b : R) : R := Rmin a b.

(** [clamp(x, minVal, maxVal) = min(max(x, minVal), maxVal)]. *)
Definition clamp (x minVal maxVal : R) : R := min (max x minVal) maxVal.
Definition clamp2 (v : vec2) (minVal maxVal : R) : vec2 :=
  Vec2 (clamp (x2 v) minVal maxVal) (clamp (y2 v) minVal maxVal).

(** [smoothstep(edge0, edge1, x)]: the reference formula
    [t = clamp((x - edge0) / (edge1 - edge0), 0, 1); t * t * (3 - 2 * t)].
    The simulation shader calls it with [edge0 > edge1], where the formula
    is a falling edge. *)
Definition smoothstep (edge0 edge1 x : R) : R :=
  let t := clamp ((x - edge0) / (edge1 - edge0)) 0.0 1.0 in
  t * t * (3.0 - 2.0 * t).

(** [mix(x, y, a) = x * (1 - a) + y * a]. *)
Definition mix (x y a : R) : R := x * (1.0 - a) + y * a.

(** [pow(x, 10.0)] on a base [x >= 0] is the tenth power; the display
    shader only calls [pow] on [max(0.0, light)] with the exponent
    [10.0]. *)
Definition pow10 (x : R) : R := x ^ 10.

End GLSL.
Import GLSL.

(* ================================================================== *)
(** * [src/types.ts] *)
(* ================================================================== *)

Record FluidParams := {
  reflectionIntensity : R;
  refractionIndex : R;
  distortionStrength : R;
  waveHeight : R;
  speed : R;
  rippleStrength : R;
  viscosity : R
}.

Module position.
Record t := mk { x : R; y : R }.
End position.

Record HandStatus := {
  detected : bool;
  pinching : bool;
  distance : R;                  (* Z-depth proxy *)
  position : position.t
}.

(* ================================================================== *)
(** * The simulation shader (ripple physics) *)
(* ================================================================== *)

Module SimulationShader.

(** The uniforms, over the type [tex] of what a sampler uniform holds: a
    texture handle in the material, a [sampler2D] in the running shader. *)
Record uniforms (tex : Type) := {
  uPrev : tex;
  uMouse : vec3;                 (* x, y, force *)
  uViscosity : R;
  uRippleStrength : R
}.
Arguments uPrev {tex} _.
Arguments uMouse {tex} _.
Arguments uViscosity {tex} _.
Arguments uRippleStrength {tex} _.

Definition vertexShader (uv : vec2) : vec2 := uv.       (* vUv = uv *)

(** [vec2 texel = 1.0 / vec2(512.0, 512.0)]: the resolution of the FBO. *)
Definition texel : vec2 := Vec2 (1.0 / 512.0) (1.0 / 512.0).

(** The four neighbour samples. *)
Definition top (uPrev : sampler2D) (vUv : vec2) : R :=
  r4 (texture2D uPrev (add2 vUv (Vec2 0.0 (y2 texel)))).
Definition bottom (uPrev : sampler2D) (vUv : vec2) : R :=
  r4 (texture2D uPrev (sub2 vUv (Vec2 0.0 (y2 texel)))).
Definition left (uPrev : sampler2D) (vUv : vec2) : R :=
  r4 (texture2D uPrev (sub2 vUv (Vec2 (x2 texel) 0.0))).
Definition right (uPrev : sampler2D) (vUv : vec2) : R :=
  r4 (texture2D uPrev (add2 vUv (Vec2 (x2 texel) 0.0))).

(** [float brush = smoothstep(0.05, 0.0, d) * uMouse.z * uRippleStrength]
    with [d = distance(vUv, uMouse.xy)]. *)
Definition brush (uMouse : vec3) (uRippleStrength : R) (vUv : vec2) : R :=
  let d := GLSL.distance vUv (xy uMouse) in
  smoothstep 0.05 0.0 d * z3 uMouse * uRippleStrength.

(** [void main()] of the fragment shader; the result is [gl_FragColor]. *)
Definition fragmentShader (u : uniforms sampler2D) (vUv : vec2) : vec4 :=
  let top := top (uPrev u) vUv in
  let bottom := bottom (uPrev u) vUv in
  let left := left (uPrev u) vUv in
  let right := right (uPrev u) vUv in
  (* Basic wave equation / smoothing *)
  let current := (top + bottom + left + right) * 0.25 in
  (* Add mouse interaction *)
  let brush := brush (uMouse u) (uRippleStrength u) vUv in
  let current := current + brush in
  (* Decay (Viscosity) *)
  let current := current * uViscosity u in
  Vec4 current current current 1.0.

End SimulationShader.

(* ================================================================== *)
(** * The display shader (glass distortion) *)
(* ================================================================== *)

Module DisplayShader.

Record uniforms (tex : Type) := {
  uTexture : tex;                (* Webcam feed *)
  uData : tex;                   (* Simulation FBO *)
  uRefraction : R;
  uReflection : R;
  uDistortion : R;
  uTime : R
}.
Arguments uTexture {tex} _.
Arguments uData {tex} _.
Arguments uRefraction {tex} _.
Arguments uReflection {tex} _.
Arguments uDistortion {tex} _.
Arguments uTime {tex} _.

Definition vertexShader (uv : vec2) : vec2 := uv.       (* vUv = uv *)

(** The ripple height. *)
Definition height (u : uniforms sampler2D) (vUv : vec2) : R :=
  r4 (texture2D (uData u) vUv).

(** The normal from forward differences of the height at [offset = 0.01]. *)
Definition normal (u : uniforms sampler2D) (vUv : vec2) : vec3 :=
  let height := height u vUv in
  let offset := 0.01 in
  let hRight := r4 (texture2D (uData u) (add2 vUv (Vec2 offset 0.0))) in
  let hTop := r4 (texture2D (uData u) (add2 vUv (Vec2 0.0 offset))) in
  normalize (Vec3 (hRight - height) (hTop - height) 1.0).

(** The distorted coordinate after the bounds check. *)
Definition distortedUv (u : uniforms sampler2D) (vUv : vec2) : vec2 :=
  let normal := normal u vUv in
  let distortedUv :=
    sub2 vUv (scale2 (scale2 (xy normal) (uRefraction u)) (uDistortion u)) in
  clamp2 distortedUv 0.001 0.999.

Definition camColor (u : uniforms sampler2D) (vUv : vec2) : vec4 :=
  texture2D (uTexture u) (distortedUv u vUv).

Definition highlight (u : uniforms sampler2D) (vUv : vec2) : vec3 :=
  let light := dot3 (normal u vUv) (normalize (Vec3 0.5 0.5 1.0)) in
  scale3 (scale3 (Vec3 1.0 1.0 1.0) (pow10 (max 0.0 light))) (uReflection u).

(** [vec3 finalColor = camColor.rgb + highlight * height], before the
    chromatic aberration. *)
Definition mixedColor (u : uniforms sampler2D) (vUv : vec2) : vec3 :=
  add3 (rgb (camColor u vUv)) (scale3 (highlight u vUv) (height u vUv)).

(** The coordinates of the two extra camera samples of the chromatic
    aberration. *)
Definition rCoord (u : uniforms sampler2D) (vUv : vec2) : vec2 :=
  add2 (distortedUv u vUv) (Vec2 0.002 0.0).
Definition bCoord (u : uniforms sampler2D) (vUv : vec2) : vec2 :=
  sub2 (distortedUv u vUv) (Vec2 0.002 0.0).

(** [void main()] of the fragment shader; the result is [gl_FragColor]. *)
Definition fragmentShader (u : uniforms sampler2D) (vUv : vec2) : vec4 :=
  let height := height u vUv in
  let finalColor := mixedColor u vUv in
  let finalColor :=
    if Rgt_dec height 0.1 then
      let r := r4 (texture2D (uTexture u) (rCoord u vUv)) in
      let b := b4 (texture2D (uTexture u) (bCoord u vUv)) in
      Vec3 (mix (r3 finalColor) r 0.5)
           (g3 finalColor)
           (mix (b3 finalColor) b 0.5)
    else finalColor in
  Vec4 (r3 finalColor) (g3 finalColor) (b3 finalColor) 1.0.

(** The coordinates at which one run of [main] samples [uTexture], in
    program order: the camera sample, then, behind the height test, the
    red and the blue sample. *)
Definition cameraFetches (u : uniforms sampler2D) (vUv : vec2) : list vec2 :=
  distortedUv u vUv ::
  (if Rgt_dec (height u vUv) 0.1 then [rCoord u vUv; bCoord u vUv] else []).

End DisplayShader.

(* ================================================================== *)
(** * The frame loop of the [Simulation] component *)
(* ================================================================== *)

(** The two render targets of the ping-pong simulation. *)
Inductive FBO := fboA | fboB.

(** What a sampler uniform of a material holds: the texture of one of the
    two targets or the video texture ([null] is [None]). *)
Inductive TextureRef := FBOTexture (f : FBO) | VideoTexture.

(** The rendering context [gl], as far as the component uses it: the content
    of a render target ([useFBO(512, 512, ...)]), what [texture2D] returns
    on it, and [gl.render] of the full-screen quad, which stores the
    fragment shader's output in the target. *)
Class WebGL := {
  Texture : Type;
  sampler : Texture -> sampler2D;
  render : (vec2 -> vec4) -> Texture
}.

(** Sampling a sampler uniform that holds no texture gives opaque black. *)
Definition nullSampler : sampler2D := fun _ => Vec4 0 0 0 1.

(** What [useFrame] reads besides its own refs, at one tick. *)
Record FrameInput := {
  materials : bool;        (* simMaterial.current && displayMaterial.current *)
  handStatus : HandStatus;
  params : FluidParams;
  videoTexture : option sampler2D;   (* videoTexture.current, as the image it shows *)
  elapsedTime : R                    (* state.clock.elapsedTime *)
}.

(** The disturbance taken from the hand status. *)
Definition mouseX (h : HandStatus) : R :=
  if detected h then position.x (position h) else -1.
Definition mouseY (h : HandStatus) : R :=
  if detected h then 1.0 - position.y (position h) else -1.
Definition force (h : HandStatus) : R :=
  if pinching h then 1.0 else (if detected h then 0.2 else 0.0).

Section Driver.
Context {gl : WebGL}.

(** The refs and objects that live across frames. *)
Record State := {
  texture : FBO -> Texture;          (* fboA.texture, fboB.texture *)
  swap : bool;                       (* the ping-pong ref *)
  simMaterial : SimulationShader.uniforms (option TextureRef);
  displayMaterial : DisplayShader.uniforms (option TextureRef)
}.

(** The materials as their shader literals create them. *)
Definition initialState (a b : Texture) : State := {|
  texture := fun f => match f with fboA => a | fboB => b end;
  swap := false;
  simMaterial := {|
    SimulationShader.uPrev := None;
    SimulationShader.uMouse := Vec3 0 0 0;
    SimulationShader.uViscosity := 0.98;
    SimulationShader.uRippleStrength := 0.5 |};
  displayMaterial := {|
    DisplayShader.uTexture := None;
    DisplayShader.uData := None;
    DisplayShader.uRefraction := 0.1;
    DisplayShader.uReflection := 0.5;
    DisplayShader.uDistortion := 1.0;
    DisplayShader.uTime := 0.0 |}
|}.

Definition currentFBO (s : State) : FBO := if swap s then fboA else fboB.
Definition prevFBO (s : State) : FBO := if swap s then fboB else fboA.

Definition FBO_eqb (f f' : FBO) : bool :=
  match f, f' with
  | fboA, fboA | fboB, fboB => true
  | _, _ => false
  end.

(** The sampler behind a sampler uniform, given the targets' contents and
    the image the video texture shows. *)
Definition bind (textures : FBO -> Texture) (video : option sampler2D)
    (t : option TextureRef) : sampler2D :=
  match t with
  | Some (FBOTexture f) => sampler (textures f)
  | Some VideoTexture =>
      match video with Some image => image | None => nullSampler end
  | None => nullSampler
  end.

Definition bindSim (textures : FBO -> Texture)
    (u : SimulationShader.uniforms (option TextureRef))
    : SimulationShader.uniforms sampler2D := {|
  SimulationShader.uPrev := bind textures None (SimulationShader.uPrev u);
  SimulationShader.uMouse := SimulationShader.uMouse u;
  SimulationShader.uViscosity := SimulationShader.uViscosity u;
  SimulationShader.uRippleStrength := SimulationShader.uRippleStrength u |}.

Definition bindDisplay (textures : FBO -> Texture) (video : option sampler2D)
    (u : DisplayShader.uniforms (option TextureRef))
    : DisplayShader.uniforms sampler2D := {|
  DisplayShader.uTexture := bind textures video (DisplayShader.uTexture u);
  DisplayShader.uData := bind textures video (DisplayShader.uData u);
  DisplayShader.uRefraction := DisplayShader.uRefraction u;
  DisplayShader.uReflection := DisplayShader.uReflection u;
  DisplayShader.uDistortion := DisplayShader.uDistortion u;
  DisplayShader.uTime := DisplayShader.uTime u |}.

(** [gl.setRenderTarget(target); gl.render(sceneSim, cameraSim)]: the
    simulation shader runs on the textures as they are before the pass and
    its output replaces the content of [target]. *)
Definition renderSim (textures : FBO -> Texture)
    (u : SimulationShader.uniforms (option TextureRef)) (target : FBO)
    : FBO -> Texture :=
  fun f =>
    if FBO_eqb f target
    then render (SimulationShader.fragmentShader (bindSim textures u))
    else textures f.

(** The callback given to [useFrame]. *)
Definition useFrame (s : State) (i : FrameInput) : State :=
  if negb (materials i) then s else
  (* 1. Update Simulation Shader Uniforms *)
  let currentFBO := currentFBO s in
  let prevFBO := prevFBO s in
  let mouseX := mouseX (handStatus i) in
  let mouseY := mouseY (handStatus i) in
  let force := force (handStatus i) in
  let sim := {|
    SimulationShader.uPrev := Some (FBOTexture prevFBO);
    SimulationShader.uMouse := Vec3 mouseX mouseY force;
    SimulationShader.uViscosity := viscosity (params i);
    SimulationShader.uRippleStrength := rippleStrength (params i) |} in
  (* 2. Render Simulation to Current FBO *)
  let textures := renderSim (texture s) sim currentFBO in
  (* 3. Update Display Shader Uniforms *)
  let display := {|
    DisplayShader.uTexture :=
      match videoTexture i with
      | Some _ => Some VideoTexture
      | None => DisplayShader.uTexture (displayMaterial s)
      end;
    DisplayShader.uData := Some (FBOTexture currentFBO);
    DisplayShader.uRefraction := refractionIndex (params i);
    DisplayShader.uReflection := reflectionIntensity (params i);
    DisplayShader.uDistortion := distortionStrength (params i);
    DisplayShader.uTime := elapsedTime i * speed (params i) |} in
  (* Swap buffers *)
  {| texture := textures;
     swap := negb (swap s);
     simMaterial := sim;
     displayMaterial := display |}.

(** The render of the component's own mesh, which follows the callback in
    every tick: the display shader on the state the callback left. *)
Definition displayPass (s : State) (video : option sampler2D) (vUv : vec2)
    : vec4 :=
  DisplayShader.fragmentShader (bindDisplay (texture s) video (displayMaterial s))
    vUv.

(** One tick: the callback, then the picture on the screen. *)
Definition tick (s : State) (i : FrameInput) : State * (vec2 -> vec4) :=
  let s' := useFrame s i in (s', displayPass s' (videoTexture i)).

(** A run of ticks: the final state and the pictures, first tick first. *)
Fixpoint run (s : State) (inputs : list FrameInput)
    : State * list (vec2 -> vec4) :=
  match inputs with
  | [] => (s, [])
  | i :: rest =>
      let '(s', picture) := tick s i in
      let '(s'', pictures) := run s' rest in
      (s'', picture :: pictures)
  end.

(** The field the next update reads and the display shows. *)
Definition currentField (s : State) (vUv : vec2) : R :=
  r4 (sampler (texture s (prevFBO s)) vUv).

(** The uniforms the simulation pass of a tick runs with, the sampler bound:
    [uPrev] is the texture of [prevFBO]. *)
Definition simUniforms (s : State) (i : FrameInput)
    : SimulationShader.uniforms sampler2D :=
  {| SimulationShader.uPrev := sampler (texture s (prevFBO s));
     SimulationShader.uMouse :=
       Vec3 (mouseX (handStatus i)) (mouseY (handStatus i)) (force (handStatus i));
     SimulationShader.uViscosity := viscosity (params i);
     SimulationShader.uRippleStrength := rippleStrength (params i) |}.

End Driver.

(** The number of ticks of a run in which the callback does not return
    early, that is the number of field updates. *)
Definition updates (inputs : list FrameInput) : nat :=
  length (filter materials inputs).

(** Two parameter records that differ at most in [speed] and [waveHeight]. *)
Definition sameButSpeedAndWaveHeight (p q : FluidParams) : Prop :=
  reflectionIntensity p = reflectionIntensity q /\
  refractionIndex p = refractionIndex q /\
  distortionStrength p = distortionStrength q /\
  rippleStrength p = rippleStrength q /\
  viscosity p = viscosity q.

(** Two states of the loop that differ at most in the [uTime] uniform of the
    display material. *)
Definition sameButTime {gl : WebGL} (s1 s2 : State) : Prop :=
  texture s1 = texture s2 /\
  swap s1 = swap s2 /\
  simMaterial s1 = simMaterial s2 /\
  DisplayShader.uTexture (displayMaterial s1)
    = DisplayShader.uTexture (displayMaterial s2) /\
  DisplayShader.uData (displayMaterial s1)
    = DisplayShader.uData (displayMaterial s2) /\
  DisplayShader.uRefraction (displayMaterial s1)
    = DisplayShader.uRefraction (displayMaterial s2) /\
  DisplayShader.uReflection (displayMaterial s1)
    = DisplayShader.uReflection (displayMaterial s2) /\
  DisplayShader.uDistortion (displayMaterial s1)
    = DisplayShader.uDistortion (displayMaterial s2).

(** Two settings of the display shader's uniforms with the same field, the
    same camera image and the same three scalar parameters; [uTime] is
    free. *)
Definition sameDisplayInputs (u1 u2 : DisplayShader.uniforms sampler2D) : Prop :=
  (forall coord, DisplayShader.uData u1 coord = DisplayShader.uData u2 coord) /\
  (forall coord, DisplayShader.uTexture u1 coord = DisplayShader.uTexture u2 coord) /\
  DisplayShader.uRefraction u1 = DisplayShader.uRefraction u2 /\
  DisplayShader.uReflection u1 = DisplayShader.uReflection u2 /\
  DisplayShader.uDistortion u1 = DisplayShader.uDistortion u2.

(** Two pictures with the same colour at every pixel. *)
Definition samePicture (p q : vec2 -> vec4) : Prop :=
  forall vUv, p vUv = q vUv.

(** Two inputs of a tick that differ at most in those two parameters. *)
Definition sameButSpeedAndWaveHeightInput (i j : FrameInput) : Prop :=
  materials i = materials j /\
  handStatus i = handStatus j /\
  sameButSpeedAndWaveHeight (params i) (params j) /\
  videoTexture i = videoTexture j /\
  elapsedTime i = elapsedTime j.

(* ================================================================== *)
(** * The hand-status producer of the application component *)
(* ================================================================== *)

Module landmark.
Record t := mk { x : R; y : R; z : R }.
End landmark.

(** The status set when the landmarker reports a hand. *)
Definition detectedStatus (landmarks : nat -> landmark.t) : HandStatus :=
  let thumbTip := landmarks 4%nat in
  let indexTip := landmarks 8%nat in
  (* Check distance for pinch (simple euclidean) *)
  let dx := landmark.x thumbTip - landmark.x indexTip in
  let dy := landmark.y thumbTip - landmark.y indexTip in
  let dz := landmark.z thumbTip - landmark.z indexTip in
  let pinchDist := sqrt (dx * dx + dy * dy + dz * dz) in
  let isPinching := if Rlt_dec pinchDist 0.08 then true else false in
  (* Interaction point (midpoint of thumb and index) *)
  let midX := (landmark.x thumbTip + landmark.x indexTip) / 2 in
  let midY := (landmark.y thumbTip + landmark.y indexTip) / 2 in
  let scaleY := Rabs (landmark.y (landmarks 0%nat) - landmark.y (landmarks 9%nat)) in
  let scaleX := Rabs (landmark.x (landmarks 0%nat) - landmark.x (landmarks 9%nat)) in
  let handSize := sqrt (scaleX * scaleX + scaleY * scaleY) in
  let normalizedDepth := Rmin (Rmax ((handSize - 0.1) * 3.3) 0) 1 in
  {| detected := true;
     pinching := isPinching;
     distance := normalizedDepth;
     position := position.mk midX midY |}.

(** The status set when it reports none: [{ ...prev, detected: false,
    pinching: false }]. *)
Definition lostStatus (prev : HandStatus) : HandStatus :=
  {| detected := false;
     pinching := false;
     distance := distance prev;
     position := position prev |}.

(** One round of [predict] that reaches the landmarker, on its result
    [results.landmarks]. *)
Definition predict (landmarks : list (nat -> landmark.t)) (prev : HandStatus)
    : HandStatus :=
  match landmarks with
  | hand :: _ => detectedStatus hand
  | [] => lostStatus prev
  end.

(** The initial value of the [handStatus] state. *)
Definition initialHandStatus : HandStatus :=
  {| detected := false;
     pinching := false;
     distance := 0;
     position := position.mk 0.5 0.5 |}.

(** The statuses the application can hand to the simulation. *)
Inductive published : HandStatus -> Prop :=
| published_initial : published initialHandStatus
| published_predict landmarks prev :
    published prev -> published (predict landmarks prev).

(** [DEFAULT_PARAMS]. *)
Definition DEFAULT_PARAMS : FluidParams :=
  {| reflectionIntensity := 0.5;
     refractionIndex := 0.1;
     distortionStrength := 0.8;
     waveHeight := 0.5;
     speed := 1.0;
     rippleStrength := 0.6;
     viscosity := 0.96 |}.

(* ================================================================== *)
(** * A rendering context: 512 x 512 texels, linear filter *)
(* ================================================================== *)

(** The targets as [useFBO(512, 512, { minFilter: LinearFilter, magFilter:
    LinearFilter })] makes them, with the wrap mode left at clamp-to-edge:
    a grid of texels, rendered at the texel centres and sampled by bilinear
    interpolation of the four nearest texels. *)
Module Linear512.

Definition Grid : Type := Z -> Z -> vec4.

Definition center (i : Z) : R := (IZR i + 0.5) / 512.

Definition clampToEdge (i : Z) : Z := Z.max 0 (Z.min 511 i).

Definition texelFetch (g : Grid) (i j : Z) : vec4 :=
  g (clampToEdge i) (clampToEdge j).

Definition mix4 (a b : vec4) (t : R) : vec4 :=
  Vec4 (mix (r4 a) (r4 b) t) (mix (g4 a) (g4 b) t)
       (mix (b4 a) (b4 b) t) (mix (a4 a) (a4 b) t).

Definition sampler (g : Grid) : sampler2D := fun coord =>
  let px := x2 coord * 512 - 0.5 in
  let py := y2 coord * 512 - 0.5 in
  let i := Int_part px in
  let j := Int_part py in
  let fx := frac_part px in
  let fy := frac_part py in
  mix4 (mix4 (texelFetch g i j) (texelFetch g (i + 1) j) fx)
       (mix4 (texelFetch g i (j + 1)) (texelFetch g (i + 1) (j + 1)) fx)
       fy.

Definition render (f : vec2 -> vec4) : Grid :=
  fun i j => f (Vec2 (center i) (center j)).

Definition gl : WebGL := Build_WebGL Grid sampler render.

(** A target cleared to one value. *)
Definition cleared (c : R) : Grid := fun _ _ => Vec4 c c c 1.

End Linear512.

(** Two properties of a rendering context that the statements about whole
    runs rest on: a pass whose output is one value at every fragment leaves a
    texture that samples to that value everywhere, and a pass whose output is
    nowhere negative leaves a texture that samples nowhere negative. *)
Definition keeps_uniform (gl : WebGL) : Prop :=
  forall (f : vec2 -> vec4) (c : R),
    (forall vUv, r4 (f vUv) = c) ->
    forall coord, r4 (sampler (render f) coord) = c.

Definition keeps_nonneg (gl : WebGL) : Prop :=
  forall f : vec2 -> vec4,
    (forall vUv, 0 <= r4 (f vUv)) ->
    forall coord, 0 <= r4 (sampler (render f) coord).

(* ================================================================== *)
(** * The stages as the specification words them *)
(* ================================================================== *)

Module Spec.

(** Field Update Stage, steps 2, 4 and 5. *)
Definition smoothed (top bottom left right : R) : R :=
  (top + bottom + left + right) / 4.
Definition brush (dist force rippleStrength : R) : R :=
  smoothstep 0.05 0.0 dist * force * rippleStrength.
Definition value (smoothed brush viscosity : R) : R :=
  (smoothed + brush) * viscosity.

(** Hand-to-Disturbance Mapper: position and force. *)
Definition sentinel : vec2 := Vec2 (-1) (-1).
Definition flipped (h : HandStatus) : vec2 :=
  Vec2 (position.x (position h)) (1 - position.y (position h)).

(** Display Compositor, step 7 and the blend of step 8. *)
Definition finalColor (camColor : vec4) (highlight : vec3) (height : R) : vec3 :=
  Vec3 (r4 camColor + x3 highlight * height)
       (g4 camColor + y3 highlight * height)
       (b4 camColor + z3 highlight * height).
Definition blend5050 (a b : R) : R := (a + b) / 2.

End Spec.

(* ================================================================== *)
(** * Concrete fields, statuses and inputs *)
(* ================================================================== *)

(** A field with one value everywhere. *)
Definition flat (c : R) : sampler2D := fun _ => Vec4 c c c 1.

(** The centre of texel 256 of the 512 grid. *)
Definition c256 : R := 513 / 1024.

(** The linear filter's weight of a texel at the signed offset [a] from its
    centre: 1 at the centre, 0 from one texel away on. *)
Definition tent (a : R) : R := Rmax 0 (1 - 512 * Rabs a).

(** The field that is 1 at texel (256, 256) and 0 at every other texel,
    as a linear filter samples it between the texel centres. *)
Definition spike : sampler2D := fun coord =>
  let h := tent (x2 coord - c256) * tent (y2 coord - c256) in
  Vec4 h h h 1.

(** No hand in view. *)
Definition noHand : HandStatus := initialHandStatus.

(** A record with [pinching] set although no hand is detected. *)
Definition pinchUndetected : HandStatus :=
  {| detected := false; pinching := true; distance := 0;
     position := position.mk 0.5 0.5 |}.

(** A pinch in the middle of the picture. *)
Definition pinchCentre : HandStatus :=
  {| detected := true; pinching := true; distance := 0.5;
     position := position.mk 0.5 0.5 |}.

(** A hover in the upper left quarter. *)
Definition hoverUpperLeft : HandStatus :=
  {| detected := true; pinching := false; distance := 0.5;
     position := position.mk 0.25 0.25 |}.

Definition frameInput (h : HandStatus) (p : FluidParams) (t : R) : FrameInput :=
  {| materials := true; handStatus := h; params := p;
     videoTexture := Some (flat 0.25); elapsedTime := t |}.

(** The default parameters at another speed and wave height. *)
Definition fastTallParams : FluidParams :=
  {| reflectionIntensity := 0.5;
     refractionIndex := 0.1;
     distortionStrength := 0.8;
     waveHeight := 2;
     speed := 3;
     rippleStrength := 0.6;
     viscosity := 0.96 |}.

(** A tick before the materials exist: the callback returns early. *)
Definition idleInput : FrameInput :=
  {| materials := false; handStatus := noHand; params := DEFAULT_PARAMS;
     videoTexture := None; elapsedTime := 0 |}.

(** The state before the first tick, both targets cleared to [c]. *)
Definition clearedState (c : R) : @State Linear512.gl :=
  @initialState Linear512.gl (Linear512.cleared c) (Linear512.cleared c).

(** The target that holds 1 in texel (256, 256) and 0 in every other, and
    the state before the first tick with this target as [fboA]. *)
Definition spikeGrid : Linear512.Grid := fun i j =>
  if ((i =? 256)%Z && (j =? 256)%Z)%bool then Vec4 1 1 1 1 else Vec4 0 0 0 1.

Definition spikeState : @State Linear512.gl :=
  @initialState Linear512.gl spikeGrid (Linear512.cleared 0).

(** Uniforms of the simulation shader: a pinch in the middle of a flat
    field, and no disturbance over the spike. *)
Definition pinchOnFlat : SimulationShader.uniforms sampler2D :=
  {| SimulationShader.uPrev := flat 0.5;
     SimulationShader.uMouse := Vec3 0.5 0.5 1;
     SimulationShader.uViscosity := 0.96;
     SimulationShader.uRippleStrength := 0.6 |}.

Definition restOnSpike : SimulationShader.uniforms sampler2D :=
  {| SimulationShader.uPrev := spike;
     SimulationShader.uMouse := Vec3 (-1) (-1) 0;
     SimulationShader.uViscosity := 0.96;
     SimulationShader.uRippleStrength := 0.6 |}.

(** Uniforms of the display shader over a flat field of height [h], with
    the default parameters and a uniformly grey camera image. *)
Definition displayOnFlat (h time : R) : DisplayShader.uniforms sampler2D :=
  {| DisplayShader.uTexture := flat 0.25;
     DisplayShader.uData := flat h;
     DisplayShader.uRefraction := 0.1;
     DisplayShader.uReflection := 0.5;
     DisplayShader.uDistortion := 0.8;
     DisplayShader.uTime := time |}.

(* ================================================================== *)
(** * The audio service *)
(* ================================================================== *)

Module AudioService.

(** An [AudioParam]: its [value] and the target of the last
    [setTargetAtTime]. *)
Record AudioParam := { value : R; target : option R }.

(** An oscillator with the gain node behind it: the context that created
    it, its frequency and the gain it is connected through. *)
Record OscillatorNode := { context : nat; frequency : R; gain : R }.

(** The fields of the service: the open context, the [gain] parameter of
    the master gain node, the oscillators, the LFO, and the [frequency]
    parameter of the low-pass filter. *)
Record t := {
  ctx : option nat;
  masterGain : option AudioParam;
  oscillators : list OscillatorNode;
  lfo : option OscillatorNode;
  filter : option AudioParam
}.

(** [new AudioService()]. *)
Definition create : t :=
  {| ctx := None; masterGain := None; oscillators := []; lfo := None;
     filter := None |}.

(** A major 7 chord. *)
Definition freqs : list R := [110; 164.81; 196.00; 220].

(** The body of the [forEach] in [start]. *)
Definition addOscillator (s : t) (freq : R) : t :=
  match ctx s, filter s with
  | Some c, Some _ =>
      {| ctx := ctx s;
         masterGain := masterGain s;
         oscillators :=
           oscillators s ++ [{| context := c; frequency := freq; gain := 0.2 |}];
         lfo := lfo s;
         filter := filter s |}
  | _, _ => s
  end.

(** [start()], [newContext] being the context that [new AudioContext()]
    gives. *)
Definition start (newContext : nat) (s : t) : t :=
  match ctx s with
  | Some _ => s
  | None =>
      let s1 :=
        {| ctx := Some newContext;
           masterGain := Some {| value := 0; target := None |};   (* Start silent *)
           oscillators := oscillators s;
           lfo := lfo s;
           filter := Some {| value := 400; target := None |} |} in
      let s2 := fold_left addOscillator freqs s1 in
      {| ctx := ctx s2;
         masterGain := masterGain s2;
         oscillators := oscillators s2;
         lfo := Some {| context := newContext; frequency := 0.1; gain := 200 |};
         filter := filter s2 |}
  end.

(** [updateVolume(normalizedDepth)]. *)
Definition updateVolume (normalizedDepth : R) (s : t) : t :=
  match masterGain s, ctx s with
  | Some g, Some _ =>
      let targetVolume := Rmin (Rmax normalizedDepth 0) 1 * 0.8 in
      let g' := {| value := value g; target := Some targetVolume |} in
      match filter s with
      | Some f =>
          let targetFreq := 200 + normalizedDepth * 1000 in
          {| ctx := ctx s;
             masterGain := Some g';
             oscillators := oscillators s;
             lfo := lfo s;
             filter := Some {| value := value f; target := Some targetFreq |} |}
      | None =>
          {| ctx := ctx s;
             masterGain := Some g';
             oscillators := oscillators s;
             lfo := lfo s;
             filter := filter s |}
      end
  | _, _ => s
  end.

(** [stop()]. *)
Definition stop (s : t) : t :=
  match ctx s with
  | Some _ =>
      {| ctx := None;
         masterGain := masterGain s;
         oscillators := oscillators s;
         lfo := lfo s;
         filter := filter s |}
  | None => s
  end.

(** The calls a client can make. *)
Inductive call :=
| Start (newContext : nat)
| UpdateVolume (normalizedDepth : R)
| Stop.

Definition perform (s : t) (c : call) : t :=
  match c with
  | Start newContext => start newContext s
  | UpdateVolume normalizedDepth => updateVolume normalizedDepth s
  | Stop => stop s
  end.

(** The number of calls of [start] in a sequence that open a context. *)
Fixpoint opened (s : t) (calls : list call) : nat :=
  match calls with
  | [] => 0
  | c :: rest =>
      (match c, ctx s with Start _, None => 1 | _, _ => 0 end
       + opened (perform s c) rest)%nat
  end.

End AudioService.

(* ================================================================== *)
(** * The application component *)
(* ================================================================== *)

(** [src/types.ts]. *)
Inductive SoundState := MUTED | PLAYING.

(** [keyof FluidParams]. *)
Inductive FluidParamsKey :=
| key_reflectionIntensity
| key_refractionIndex
| key_distortionStrength
| key_waveHeight
| key_speed
| key_rippleStrength
| key_viscosity.

(** [params[key]]. *)
Definition getParam (key : FluidParamsKey) (p : FluidParams) : R :=
  match key with
  | key_reflectionIntensity => reflectionIntensity p
  | key_refractionIndex => refractionIndex p
  | key_distortionStrength => distortionStrength p
  | key_waveHeight => waveHeight p
  | key_speed => speed p
  | key_rippleStrength => rippleStrength p
  | key_viscosity => viscosity p
  end.

(** [updateParam]: [{ ...prev, [key]: value }]. *)
Definition updateParam (key : FluidParamsKey) (value : R) (prev : FluidParams)
    : FluidParams :=
  {| reflectionIntensity :=
       match key with key_reflectionIntensity => value | _ => reflectionIntensity prev end;
     refractionIndex :=
       match key with key_refractionIndex => value | _ => refractionIndex prev end;
     distortionStrength :=
       match key with key_distortionStrength => value | _ => distortionStrength prev end;
     waveHeight :=
       match key with key_waveHeight => value | _ => waveHeight prev end;
     speed :=
       match key with key_speed => value | _ => speed prev end;
     rippleStrength :=
       match key with key_rippleStrength => value | _ => rippleStrength prev end;
     viscosity :=
       match key with key_viscosity => value | _ => viscosity prev end |}.


(** The five sliders of the controls panel, with the key each one writes
    and its [min] and [max]. *)
Inductive ControlSlider :=
| ViscositySlider
| DistortionStrengthSlider
| RefractionIndexSlider
| RippleStrengthSlider
| ReflectionSlider.

Definition sliderKey (c : ControlSlider) : FluidParamsKey :=
  match c with
  | ViscositySlider => key_viscosity
  | DistortionStrengthSlider => key_distortionStrength
  | RefractionIndexSlider => key_refractionIndex
  | RippleStrengthSlider => key_rippleStrength
  | ReflectionSlider => key_reflectionIntensity
  end.

Definition sliderMin (c : ControlSlider) : R :=
  match c with
  | ViscositySlider => 0.90
  | DistortionStrengthSlider => 0.0
  | RefractionIndexSlider => 0.0
  | RippleStrengthSlider => 0.1
  | ReflectionSlider => 0.0
  end.

Definition sliderMax (c : ControlSlider) : R :=
  match c with
  | ViscositySlider => 0.995
  | DistortionStrengthSlider => 3.0
  | RefractionIndexSlider => 0.5
  | RippleStrengthSlider => 2.0
  | ReflectionSlider => 1.0
  end.

Module App.

(** The React state of the component and the audio service it talks to. *)
Record state := {
  params : FluidParams;
  handStatus : HandStatus;
  soundState : SoundState;
  audioService : AudioService.t
}.

Definition initial : state :=
  {| params := DEFAULT_PARAMS;
     handStatus := initialHandStatus;
     soundState := MUTED;
     audioService := AudioService.create |}.

(** What happens to the component: a round of [predict] that reaches the
    landmarker, with its result; a click on the sound button, with the
    context a start would open; a move of a slider to a value. *)
Inductive event :=
| Predicted (landmarks : list (nat -> landmark.t))
| SoundToggled (newContext : nat)
| SliderChanged (slider : ControlSlider) (value : R).

(** The body of [predict] behind its guards: the volume update, then the
    new hand status. *)
Definition predicted (landmarks : list (nat -> landmark.t)) (s : state) : state :=
  {| params := params s;
     handStatus := predict landmarks (handStatus s);
     soundState := soundState s;
     audioService :=
       match landmarks with
       | hand :: _ =>
           AudioService.updateVolume (distance (detectedStatus hand))
             (audioService s)
       | [] => AudioService.updateVolume 0 (audioService s)
       end |}.

(** [toggleSound]. *)
Definition toggleSound (newContext : nat) (s : state) : state :=
  match soundState s with
  | MUTED =>
      {| params := params s;
         handStatus := handStatus s;
         soundState := PLAYING;
         audioService := AudioService.start newContext (audioService s) |}
  | PLAYING =>
      {| params := params s;
         handStatus := handStatus s;
         soundState := MUTED;
         audioService := AudioService.stop (audioService s) |}
  end.

(** The [onChange] of a slider. *)
Definition sliderChanged (slider : ControlSlider) (value : R) (s : state) : state :=
  {| params := updateParam (sliderKey slider) value (params s);
     handStatus := handStatus s;
     soundState := soundState s;
     audioService := audioService s |}.

Definition handle (s : state) (e : event) : state :=
  match e with
  | Predicted landmarks => predicted landmarks s
  | SoundToggled newContext => toggleSound newContext s
  | SliderChanged slider value => sliderChanged slider value s
  end.

(** The state after a sequence of events. *)
Definition after (events : list event) : state := fold_left handle events initial.

(** An event whose slider value, if it is one, lies between the slider's
    [min] and [max]. *)
Definition inRange (e : event) : Prop :=
  match e with
  | SliderChanged slider value => sliderMin slider <= value <= sliderMax slider
  | _ => True
  end.

(** The props the component passes to [Simulation] at a tick. *)
Definition frame (s : state) (materials : bool) (videoTexture : option sampler2D)
    (elapsedTime : R) : FrameInput :=
  Build_FrameInput materials (handStatus s) (params s) videoTexture elapsedTime.

End App.

(** The service after a sequence of calls. *)
Definition audioRun (s : AudioService.t) (calls : list AudioService.call)
    : AudioService.t :=
  fold_left AudioService.perform calls s.

(** What every state of the service satisfies: while a context is open the
    master gain, the filter and the LFO exist; every oscillator plays a note
    of the chord through a gain of 0.2; a volume target lies in [0, 0.8]. *)
Definition audioInvariant (s : AudioService.t) : Prop :=
  (AudioService.ctx s <> None ->
   AudioService.masterGain s <> None /\ AudioService.filter s <> None /\
   AudioService.lfo s <> None) /\
  Forall (fun o => AudioService.gain o = 0.2 /\
                   In (AudioService.frequency o) AudioService.freqs)
    (AudioService.oscillators s) /\
  (forall g v, AudioService.masterGain s = Some g ->
               AudioService.target g = Some v -> 0 <= v <= 0.8).

(** What happens in a session: an event of the application component, or a
    tick of the frame loop with what it reads from outside the component. *)
Inductive action :=
| Event (e : App.event)
| Tick (materials : bool) (videoTexture : option sampler2D) (elapsedTime : R).

Definition act {gl : WebGL} (w : App.state * State) (a : action)
    : App.state * State :=
  match a with
  | Event e => (App.handle (fst w) e, snd w)
  | Tick materials videoTexture elapsedTime =>
      (fst w, useFrame (snd w) (App.frame (fst w) materials videoTexture elapsedTime))
  end.

(** A session from the initial state of the component, with the two
    targets given. *)
Definition session {gl : WebGL} (a b : Texture) (actions : list action)
    : App.state * State :=
  fold_left act actions (App.initial, initialState a b).

(** An action whose slider value, if it is one, is in the slider's range. *)
Definition actionInRange (a : action) : Prop :=
  match a with
  | Event e => App.inRange e
  | Tick _ _ _ => True
  end.

(** Parameters within the ranges of the five sliders. *)
Definition paramsInSliderRanges (p : FluidParams) : Prop :=
  forall c : ControlSlider,
    sliderMin c <= getParam (sliderKey c) p <= sliderMax c.

(** A third property of a rendering context, beside [keeps_uniform] and
    [keeps_nonneg]: a pass whose output nowhere exceeds a bound leaves a
    texture that samples nowhere above it. *)
Definition keeps_bound (gl : WebGL) : Prop :=
  forall (f : vec2 -> vec4) (M : R),
    (forall vUv, r4 (f vUv) <= M) ->
    forall coord, r4 (sampler (render f) coord) <= M.

(** The picture of a camera image without any refraction or highlight:
    each pixel shows the image at its own coordinate, clamped to
    [0.001, 0.999], opaque. *)
Definition unrefracted (image : sampler2D) : vec2 -> vec4 := fun vUv =>
  let c := image (clamp2 vUv 0.001 0.999) in
  Vec4 (r4 c) (g4 c) (b4 c) 1.

(** The bound that a field under decay [nu < 1] and injection of at most
    [rho] per update cannot leave. *)
Definition fieldBound (rho nu : R) : R := rho * nu / (1 - nu).

(** A hand whose landmarks all lie at one point: the thumb touches the
    index finger in the middle of the picture. *)
Definition closedHand : nat -> landmark.t :=
  fun _ => landmark.mk 0.5 0.5 0.

(** A hand with thumb and index finger 0.2 apart near the upper left. *)
Definition openHand : nat -> landmark.t := fun n =>
  match n with
  | 4%nat => landmark.mk 0.2 0.3 0
  | 8%nat => landmark.mk 0.4 0.3 0
  | 9%nat => landmark.mk 0.3 0.5 0
  | _ => landmark.mk 0.3 0.8 0
  end.

(* ================================================================== *)
(** * Facts about the built-in functions *)
(* ================================================================== *)

Lemma clamp_bounds (x lo hi : R) :
  lo <= hi -> lo <= clamp x lo hi <= hi.
Proof.
  intros Hle. unfold clamp, min, max.
  split.
  - apply Rmin_glb; [apply Rmax_r | exact Hle].
  - apply Rmin_r.
Qed.

Lemma clamp_below (x lo hi : R) :
  lo <= hi -> x <= lo -> clamp x lo hi = lo.
Proof.
  intros Hle Hx. unfold clamp, min, max.
  rewrite Rmax_right by exact Hx.
  apply Rmin_left; exact Hle.
Qed.

Lemma clamp_above (x lo hi : R) :
  lo <= hi -> hi <= x -> clamp x lo hi = hi.
Proof.
  intros Hle Hx. unfold clamp, min, max.
  rewrite Rmax_left by lra.
  apply Rmin_right; exact Hx.
Qed.

Lemma clamp_inside (x lo hi : R) :
  lo <= x <= hi -> clamp x lo hi = x.
Proof.
  intros [Hlo Hhi]. unfold clamp, min, max.
  rewrite Rmax_left by exact Hlo.
  apply Rmin_left; exact Hhi.
Qed.

Lemma smoothstep_range (edge0 edge1 x : R) :
  0 <= smoothstep edge0 edge1 x <= 1.
Proof.
  unfold smoothstep.
  pose proof (clamp_bounds ((x - edge0) / (edge1 - edge0)) 0.0 1.0) as Ht.
  set (t := clamp _ _ _) in *.
  assert (0 <= t <= 1) as [H0 H1]
    by (assert (0.0 <= 1.0) as H by lra; specialize (Ht H); lra).
  clearbody t. clear Ht.
  split.
  - apply Rmult_le_pos; [apply Rmult_le_pos; assumption | lra].
  - assert (0 <= (1 - t) * (1 - t) * (1 + 2 * t)) as H
      by (apply Rmult_le_pos; [apply Rle_0_sqr | lra]).
    lra.
Qed.

(** The falling edge of the brush: nothing from 0.05 on, everything at 0. *)
Lemma smoothstep_brush_outside (d : R) :
  0.05 <= d -> smoothstep 0.05 0.0 d = 0.
Proof.
  intros Hd. unfold smoothstep.
  rewrite clamp_below; [lra | lra | ].
  replace ((d - 0.05) / (0.0 - 0.05)) with ((0.05 - d) * 20) by lra.
  lra.
Qed.

Lemma smoothstep_brush_centre : smoothstep 0.05 0.0 0 = 1.
Proof.
  unfold smoothstep.
  rewrite clamp_above; [lra | lra | ].
  replace ((0 - 0.05) / (0.0 - 0.05)) with 1 by lra.
  lra.
Qed.

Lemma distance_nonneg (p q : vec2) : 0 <= GLSL.distance p q.
Proof. unfold GLSL.distance, length2. apply sqrt_pos. Qed.

(** A lower bound on the squared distance is one on the distance. *)
Lemma distance_gt (p q : vec2) (d : R) :
  0 <= d ->
  d * d < (x2 p - x2 q) * (x2 p - x2 q) + (y2 p - y2 q) * (y2 p - y2 q) ->
  d < GLSL.distance p q.
Proof.
  intros Hd Hsq. unfold GLSL.distance, length2, dot2, sub2; simpl.
  rewrite <- (sqrt_square d) at 1 by exact Hd.
  apply sqrt_lt_1_alt. split; [nra | exact Hsq].
Qed.

(** The sentinel is farther than the brush radius from the whole grid. *)
Lemma sentinel_far (vUv : vec2) :
  0 <= x2 vUv <= 1 -> 0 <= y2 vUv <= 1 ->
  0.05 < GLSL.distance vUv Spec.sentinel.
Proof.
  intros Hx Hy. apply distance_gt; [lra | ].
  unfold Spec.sentinel; simpl. nra.
Qed.

Lemma distance_self (p : vec2) : GLSL.distance p p = 0.
Proof.
  unfold GLSL.distance, length2, dot2, sub2; simpl.
  replace ((x2 p - x2 p) * (x2 p - x2 p) + (y2 p - y2 p) * (y2 p - y2 p))
    with 0 by ring.
  apply sqrt_0.
Qed.

(* ================================================================== *)
(** * The simulation shader *)
(* ================================================================== *)

(** The neighbour samples, with the texel offset written out. *)
Lemma neighbours_one_texel (uPrev : sampler2D) (vUv : vec2) :
  SimulationShader.top uPrev vUv = r4 (uPrev (Vec2 (x2 vUv) (y2 vUv + 1 / 512))) /\
  SimulationShader.bottom uPrev vUv = r4 (uPrev (Vec2 (x2 vUv) (y2 vUv - 1 / 512))) /\
  SimulationShader.left uPrev vUv = r4 (uPrev (Vec2 (x2 vUv - 1 / 512) (y2 vUv))) /\
  SimulationShader.right uPrev vUv = r4 (uPrev (Vec2 (x2 vUv + 1 / 512) (y2 vUv))).
Proof.
  unfold SimulationShader.top, SimulationShader.bottom, SimulationShader.left,
    SimulationShader.right, SimulationShader.texel, texture2D, add2, sub2.
  cbn [x2 y2].
  repeat split; do 2 f_equal; f_equal; lra.
Qed.

(** The red channel of the shader's output, in the shader's own locals. *)
Lemma fragment_value (u : SimulationShader.uniforms sampler2D) (vUv : vec2) :
  r4 (SimulationShader.fragmentShader u vUv) =
  ((SimulationShader.top (SimulationShader.uPrev u) vUv
    + SimulationShader.bottom (SimulationShader.uPrev u) vUv
    + SimulationShader.left (SimulationShader.uPrev u) vUv
    + SimulationShader.right (SimulationShader.uPrev u) vUv) * 0.25
   + SimulationShader.brush (SimulationShader.uMouse u)
       (SimulationShader.uRippleStrength u) vUv)
  * SimulationShader.uViscosity u.
Proof. reflexivity. Qed.

(** The brush is never negative when force and ripple strength are not. *)
Lemma brush_nonneg (uMouse : vec3) (uRippleStrength : R) (vUv : vec2) :
  0 <= z3 uMouse -> 0 <= uRippleStrength ->
  0 <= SimulationShader.brush uMouse uRippleStrength vUv.
Proof.
  intros Hf Hr. unfold SimulationShader.brush.
  pose proof (smoothstep_range 0.05 0.0 (GLSL.distance vUv (xy uMouse))) as [H0 _].
  apply Rmult_le_pos; [apply Rmult_le_pos | ]; assumption.
Qed.

Lemma brush_outside (uMouse : vec3) (uRippleStrength : R) (vUv : vec2) :
  0.05 <= GLSL.distance vUv (xy uMouse) ->
  SimulationShader.brush uMouse uRippleStrength vUv = 0.
Proof.
  intros Hd. unfold SimulationShader.brush.
  rewrite smoothstep_brush_outside by exact Hd. ring.
Qed.

Lemma brush_zero_force (uMouse : vec3) (uRippleStrength : R) (vUv : vec2) :
  z3 uMouse = 0 -> SimulationShader.brush uMouse uRippleStrength vUv = 0.
Proof. intros Hf. unfold SimulationShader.brush. rewrite Hf. ring. Qed.

(** One update keeps a nonnegative field nonnegative. *)
Lemma fragment_nonneg (u : SimulationShader.uniforms sampler2D) :
  (forall coord, 0 <= r4 (SimulationShader.uPrev u coord)) ->
  0 <= z3 (SimulationShader.uMouse u) ->
  0 <= SimulationShader.uRippleStrength u ->
  0 <= SimulationShader.uViscosity u ->
  forall vUv, 0 <= r4 (SimulationShader.fragmentShader u vUv).
Proof.
  intros Hprev Hf Hr Hv vUv. rewrite fragment_value.
  pose proof (brush_nonneg (SimulationShader.uMouse u)
                (SimulationShader.uRippleStrength u) vUv Hf Hr) as Hb.
  unfold SimulationShader.top, SimulationShader.bottom, SimulationShader.left,
    SimulationShader.right, texture2D.
  apply Rmult_le_pos; [ | exact Hv].
  apply Rplus_le_le_0_compat; [ | exact Hb].
  apply Rmult_le_pos; [ | lra].
  repeat apply Rplus_le_le_0_compat; apply Hprev.
Qed.

(** One update of a uniform field without disturbance scales it by the
    viscosity. *)
Lemma fragment_uniform (u : SimulationShader.uniforms sampler2D) (v0 : R) :
  (forall coord, r4 (SimulationShader.uPrev u coord) = v0) ->
  z3 (SimulationShader.uMouse u) = 0 ->
  forall vUv, r4 (SimulationShader.fragmentShader u vUv)
              = v0 * SimulationShader.uViscosity u.
Proof.
  intros Hprev Hf vUv. rewrite fragment_value.
  rewrite brush_zero_force by exact Hf.
  unfold SimulationShader.top, SimulationShader.bottom, SimulationShader.left,
    SimulationShader.right, texture2D.
  rewrite !Hprev. lra.
Qed.

(** The force of the mapper is 0, 0.2 or 1, so never negative. *)
Lemma force_nonneg (h : HandStatus) : 0 <= force h.
Proof. unfold force. destruct (pinching h), (detected h); lra. Qed.

(* ================================================================== *)
(** * The frame loop *)
(* ================================================================== *)

Section DriverFacts.
Context {gl : WebGL}.

Lemma useFrame_idle (s : State) (i : FrameInput) :
  materials i = false -> useFrame s i = s.
Proof. intros H. unfold useFrame. rewrite H. reflexivity. Qed.

Lemma prev_current_distinct (s : State) : prevFBO s <> currentFBO s.
Proof. unfold prevFBO, currentFBO. destruct (swap s); discriminate. Qed.

Lemma FBO_eqb_refl (f : FBO) : FBO_eqb f f = true.
Proof. destruct f; reflexivity. Qed.

Lemma FBO_eqb_neq (f f' : FBO) : f <> f' -> FBO_eqb f f' = false.
Proof. destruct f, f'; intros H; try reflexivity; contradiction H; reflexivity. Qed.

Lemma useFrame_swap (s : State) (i : FrameInput) :
  materials i = true -> swap (useFrame s i) = negb (swap s).
Proof. intros H. unfold useFrame. rewrite H. reflexivity. Qed.

Lemma useFrame_roles (s : State) (i : FrameInput) :
  materials i = true ->
  prevFBO (useFrame s i) = currentFBO s /\
  currentFBO (useFrame s i) = prevFBO s.
Proof.
  intros H. unfold prevFBO, currentFBO. rewrite (useFrame_swap s i H).
  destruct (swap s); split; reflexivity.
Qed.

Lemma useFrame_written (s : State) (i : FrameInput) :
  materials i = true ->
  texture (useFrame s i) (currentFBO s)
  = render (SimulationShader.fragmentShader (simUniforms s i)).
Proof.
  intros H. unfold useFrame. rewrite H. cbn [negb texture].
  unfold renderSim. rewrite FBO_eqb_refl. reflexivity.
Qed.

Lemma useFrame_kept (s : State) (i : FrameInput) :
  texture (useFrame s i) (prevFBO s) = texture s (prevFBO s).
Proof.
  unfold useFrame. destruct (materials i); cbn [negb texture]; [ | reflexivity].
  unfold renderSim. rewrite FBO_eqb_neq by apply prev_current_distinct.
  reflexivity.
Qed.

Lemma useFrame_uniforms (s : State) (i : FrameInput) :
  materials i = true ->
  SimulationShader.uPrev (simMaterial (useFrame s i)) = Some (FBOTexture (prevFBO s)) /\
  DisplayShader.uData (displayMaterial (useFrame s i)) = Some (FBOTexture (currentFBO s)).
Proof. intros H. unfold useFrame. rewrite H. split; reflexivity. Qed.

End DriverFacts.

(* ================================================================== *)
(** * The field update of one frame *)
(* ================================================================== *)

(** C1.  The new value of the cell at [vUv] is
    [((top + bottom + left + right) / 4
      + smoothstep(0.05, 0.0, dist(vUv, position)) * force * rippleStrength)
     * viscosity],
    the four neighbours being the previous field one texel up, down, left and
    right of the cell; the shader writes it to the three colour channels.
    This holds for every previous field, disturbance and parameters, and in
    every tick in which the callback runs the target receives exactly this
    shader's output, with the viscosity of the parameters and the mapper's
    disturbance, whatever the hand status. *)
Theorem field_update_value :
  (forall (u : SimulationShader.uniforms sampler2D) (vUv : vec2),
     let uPrev := SimulationShader.uPrev u in
     let top := r4 (uPrev (Vec2 (x2 vUv) (y2 vUv + 1 / 512))) in
     let bottom := r4 (uPrev (Vec2 (x2 vUv) (y2 vUv - 1 / 512))) in
     let left := r4 (uPrev (Vec2 (x2 vUv - 1 / 512) (y2 vUv))) in
     let right := r4 (uPrev (Vec2 (x2 vUv + 1 / 512) (y2 vUv))) in
     let position := xy (SimulationShader.uMouse u) in
     let force := z3 (SimulationShader.uMouse u) in
     let value :=
       Spec.value (Spec.smoothed top bottom left right)
         (Spec.brush (GLSL.distance vUv position) force
            (SimulationShader.uRippleStrength u))
         (SimulationShader.uViscosity u) in
     SimulationShader.fragmentShader u vUv = Vec4 value value value 1)
  /\
  (forall (gl : WebGL) (s : State) (i : FrameInput),
     materials i = true ->
     texture (useFrame s i) (currentFBO s)
     = render (SimulationShader.fragmentShader
         {| SimulationShader.uPrev := sampler (texture s (prevFBO s));
            SimulationShader.uMouse :=
              Vec3 (mouseX (handStatus i)) (mouseY (handStatus i))
                   (force (handStatus i));
            SimulationShader.uViscosity := viscosity (params i);
            SimulationShader.uRippleStrength := rippleStrength (params i) |})).
Proof.
  split.
  - intros u vUv. cbv zeta.
    destruct (neighbours_one_texel (SimulationShader.uPrev u) vUv)
      as (Ht & Hb & Hl & Hr).
    rewrite <- Ht, <- Hb, <- Hl, <- Hr.
    unfold SimulationShader.fragmentShader, SimulationShader.brush,
      Spec.value, Spec.smoothed, Spec.brush.
    cbv zeta. f_equal; lra.
  - intros gl s i Hm. apply (useFrame_written s i Hm).
Qed.

Lemma field_update_value_witness :
  texture (useFrame (clearedState 0) (frameInput pinchCentre DEFAULT_PARAMS 0))
    (currentFBO (clearedState 0))
  = render (SimulationShader.fragmentShader
      (simUniforms (clearedState 0) (frameInput pinchCentre DEFAULT_PARAMS 0))).
Proof.
  apply (proj2 field_update_value Linear512.gl (clearedState 0)
           (frameInput pinchCentre DEFAULT_PARAMS 0)).
  reflexivity.
Defined.

(** C5.  Where the distance from the cell to the disturbance position
    exceeds 0.05 the brush term is exactly zero, for every force (positive
    or not) and every ripple strength, and the cell's new value is the decayed
    neighbour average alone.  The sentinel (-1, -1) is farther than 0.05 from
    every cell of the unit square, so there it contributes nothing
    anywhere. *)
Theorem brush_locality :
  (forall (uMouse : vec3) (rippleStrength : R) (vUv : vec2),
     0.05 < GLSL.distance vUv (xy uMouse) ->
     SimulationShader.brush uMouse rippleStrength vUv = 0)
  /\
  (forall (u : SimulationShader.uniforms sampler2D) (vUv : vec2),
     0.05 < GLSL.distance vUv (xy (SimulationShader.uMouse u)) ->
     r4 (SimulationShader.fragmentShader u vUv)
     = (SimulationShader.top (SimulationShader.uPrev u) vUv
        + SimulationShader.bottom (SimulationShader.uPrev u) vUv
        + SimulationShader.left (SimulationShader.uPrev u) vUv
        + SimulationShader.right (SimulationShader.uPrev u) vUv) / 4
       * SimulationShader.uViscosity u)
  /\
  (forall (force rippleStrength : R) (vUv : vec2),
     0 <= x2 vUv <= 1 -> 0 <= y2 vUv <= 1 ->
     0.05 < GLSL.distance vUv (Vec2 (-1) (-1)) /\
     SimulationShader.brush (Vec3 (-1) (-1) force) rippleStrength vUv = 0).
Proof.
  split; [ | split].
  - intros uMouse k vUv Hd. apply brush_outside. lra.
  - intros u vUv Hd. rewrite fragment_value, brush_outside by lra.
    f_equal. lra.
  - intros f k vUv Hx Hy.
    pose proof (sentinel_far vUv Hx Hy) as Hfar.
    split; [exact Hfar | ].
    apply brush_outside. unfold xy; cbn [x3 y3].
    unfold Spec.sentinel in Hfar. lra.
Qed.

Lemma brush_locality_witness :
  SimulationShader.brush (Vec3 0.5 0.5 1) 0.6 (Vec2 0.6 0.5) = 0 /\
  SimulationShader.brush (Vec3 (-1) (-1) 1) 0.6 (Vec2 0.5 0.5) = 0.
Proof.
  split.
  - apply (proj1 brush_locality (Vec3 0.5 0.5 1) 0.6 (Vec2 0.6 0.5)).
    apply distance_gt; [lra | ]. unfold xy; cbn [x2 y2 x3 y3]. lra.
  - apply (proj2 (proj2 brush_locality) 1 0.6 (Vec2 0.5 0.5));
      cbn [x2 y2]; lra.
Defined.

(* ================================================================== *)
(** * The hand-to-disturbance mapping *)
(* ================================================================== *)

(** Every status the application publishes that pinches is detected. *)
Lemma published_pinch_detected (h : HandStatus) :
  published h -> pinching h = true -> detected h = true.
Proof.
  intros Hp. destruct Hp as [ | landmarks prev _]; cbn.
  - discriminate.
  - destruct landmarks as [ | hand rest]; cbn; [discriminate | reflexivity].
Qed.

(** C3, as stated, fails on a record that pinches without being detected:
    its position is the sentinel but its force is 1, not 0. *)
Lemma undetected_pinch_has_force :
  detected pinchUndetected = false /\
  Vec2 (mouseX pinchUndetected) (mouseY pinchUndetected) = Vec2 (-1) (-1) /\
  force pinchUndetected = 1 /\
  force pinchUndetected <> 0.
Proof.
  unfold force, mouseX, mouseY; cbn.
  repeat split; try reflexivity; lra.
Qed.

(** C3, amended.  For every hand status the position is the sentinel
    (-1, -1) when [detected] is false and [(x, 1 - y)] when it is true; the
    force is 1.0 when [pinching], whether detected or not, 0.2 when detected
    and not pinching, and 0 when neither.  So on every record in which
    pinching implies detected, as in all those the application publishes, an
    undetected hand has force 0. *)
Theorem hand_to_disturbance :
  forall h : HandStatus,
    Vec2 (mouseX h) (mouseY h)
    = (if detected h then Spec.flipped h else Spec.sentinel) /\
    force h = (if pinching h then 1 else if detected h then 0.2 else 0) /\
    ((pinching h = true -> detected h = true) ->
     detected h = false -> force h = 0).
Proof.
  intros h. unfold mouseX, mouseY, force, Spec.flipped, Spec.sentinel.
  split; [ | split].
  - destruct (detected h); f_equal; lra.
  - destruct (pinching h), (detected h); lra.
  - intros Himp Hd. destruct (pinching h).
    + rewrite Himp in Hd by reflexivity. discriminate.
    + rewrite Hd. lra.
Qed.

Lemma hand_to_disturbance_witness :
  Vec2 (mouseX pinchCentre) (mouseY pinchCentre) = Vec2 0.5 0.5 /\
  force hoverUpperLeft = 0.2 /\
  force noHand = 0.
Proof.
  split; [ | split].
  - destruct (hand_to_disturbance pinchCentre) as (Hpos & _).
    rewrite Hpos. cbn. unfold Spec.flipped. cbn. f_equal; lra.
  - destruct (hand_to_disturbance hoverUpperLeft) as (_ & Hf & _).
    rewrite Hf. reflexivity.
  - destruct (hand_to_disturbance noHand) as (_ & _ & H0).
    apply H0; [discriminate | reflexivity].
Defined.

(* ================================================================== *)
(** * The linear-filter context satisfies the two properties *)
(* ================================================================== *)

Lemma mix_same (c t : R) : mix c c t = c.
Proof. unfold mix. lra. Qed.

Lemma mix_nonneg (a b t : R) :
  0 <= a -> 0 <= b -> 0 <= t <= 1 -> 0 <= mix a b t.
Proof.
  intros Ha Hb [Ht0 Ht1]. unfold mix.
  apply Rplus_le_le_0_compat; apply Rmult_le_pos; lra.
Qed.

Lemma frac_part_range (r : R) : 0 <= frac_part r <= 1.
Proof. destruct (base_fp r) as [H0 H1]. lra. Qed.

Lemma linear512_keeps_uniform : keeps_uniform Linear512.gl.
Proof.
  intros f c Hf coord. cbn.
  unfold Linear512.sampler, Linear512.mix4, Linear512.texelFetch,
    Linear512.render.
  cbn [r4]. rewrite !Hf, !mix_same. reflexivity.
Qed.

Lemma linear512_keeps_nonneg : keeps_nonneg Linear512.gl.
Proof.
  intros f Hf coord. cbn.
  unfold Linear512.sampler, Linear512.mix4, Linear512.texelFetch,
    Linear512.render.
  cbn [r4].
  repeat apply mix_nonneg; try apply Hf; apply frac_part_range.
Qed.

Lemma linear512_cleared (c : R) (coord : vec2) :
  r4 (Linear512.sampler (Linear512.cleared c) coord) = c.
Proof.
  unfold Linear512.sampler, Linear512.mix4, Linear512.texelFetch,
    Linear512.cleared.
  cbn [r4]. rewrite !mix_same. reflexivity.
Qed.

Lemma Int_part_IZR (z : Z) : Int_part (IZR z) = z.
Proof. symmetry. apply Int_part_spec. lra. Qed.

Lemma frac_part_IZR (z : Z) : frac_part (IZR z) = 0.
Proof. unfold frac_part. rewrite Int_part_IZR. lra. Qed.

Lemma mix_first (a b : R) : mix a b 0 = a.
Proof. unfold mix. lra. Qed.

(** At the centre of a texel the linear filter returns that texel. *)
Lemma linear512_at_centre (g : Linear512.Grid) (i j : Z) (x y : R) :
  x = Linear512.center i -> y = Linear512.center j ->
  r4 (Linear512.sampler g (Vec2 x y)) = r4 (Linear512.texelFetch g i j).
Proof.
  intros -> ->. unfold Linear512.sampler. cbn [x2 y2].
  replace (Linear512.center i * 512 - 0.5) with (IZR i)
    by (unfold Linear512.center; lra).
  replace (Linear512.center j * 512 - 0.5) with (IZR j)
    by (unfold Linear512.center; lra).
  rewrite !Int_part_IZR, !frac_part_IZR.
  unfold Linear512.mix4. cbn [r4]. rewrite !mix_first. reflexivity.
Qed.

(* ================================================================== *)
(** * Runs of ticks *)
(* ================================================================== *)

Section RunFacts.
Context {gl : WebGL}.

Lemma run_cons_state (s : State) (i : FrameInput) (rest : list FrameInput) :
  fst (run s (i :: rest)) = fst (run (useFrame s i) rest).
Proof.
  cbn [run tick]. destruct (run (useFrame s i) rest) as [s'' pictures].
  reflexivity.
Qed.

Lemma run_cons_pictures (s : State) (i : FrameInput) (rest : list FrameInput) :
  snd (run s (i :: rest))
  = displayPass (useFrame s i) (videoTexture i) :: snd (run (useFrame s i) rest).
Proof.
  cbn [run tick]. destruct (run (useFrame s i) rest) as [s'' pictures].
  reflexivity.
Qed.

Lemma run_idle (s : State) (idle : list FrameInput) :
  Forall (fun i => materials i = false) idle -> fst (run s idle) = s.
Proof.
  induction 1 as [ | i rest Hi _ IH]; [reflexivity | ].
  rewrite run_cons_state, useFrame_idle by exact Hi. exact IH.
Qed.

Lemma updates_cons (i : FrameInput) (rest : list FrameInput) :
  updates (i :: rest)
  = if materials i then S (updates rest) else updates rest.
Proof. unfold updates. cbn [filter]. destruct (materials i); reflexivity. Qed.

(** The field after an update, in terms of the shader's output. *)
Lemma currentField_after (s : State) (i : FrameInput) (coord : vec2) :
  materials i = true ->
  currentField (useFrame s i) coord
  = r4 (sampler (render (SimulationShader.fragmentShader (simUniforms s i))) coord).
Proof.
  intros Hm. unfold currentField.
  destruct (useFrame_roles s i Hm) as [Hprev _].
  rewrite Hprev, useFrame_written by exact Hm. reflexivity.
Qed.

(** A uniform field under updates without disturbance. *)
Lemma run_uniform (Huni : keeps_uniform gl) (nu : R) (inputs : list FrameInput) :
  Forall (fun i => force (handStatus i) = 0 /\ viscosity (params i) = nu) inputs ->
  forall (s : State) (v : R),
    (forall coord, currentField s coord = v) ->
    forall coord, currentField (fst (run s inputs)) coord = v * nu ^ updates inputs.
Proof.
  induction 1 as [ | i rest [Hforce Hnu] _ IH]; intros s v Hs coord.
  - cbn. rewrite Hs. unfold updates; cbn. lra.
  - rewrite run_cons_state, updates_cons.
    destruct (materials i) eqn:Hm.
    + rewrite (IH (useFrame s i) (v * nu)).
      * cbn [pow]. ring.
      * intros c. rewrite currentField_after by exact Hm.
        apply Huni. intros vUv.
        rewrite (fragment_uniform (simUniforms s i) v).
        -- cbn. rewrite Hnu. reflexivity.
        -- exact Hs.
        -- exact Hforce.
    + rewrite useFrame_idle by exact Hm. apply IH. exact Hs.
Qed.

(** Both targets stay nonnegative. *)
Lemma run_nonneg (Hpos : keeps_nonneg gl) (inputs : list FrameInput) :
  Forall (fun i => 0 <= rippleStrength (params i) /\ 0 <= viscosity (params i))
    inputs ->
  forall s : State,
    (forall f coord, 0 <= r4 (sampler (texture s f) coord)) ->
    forall f coord, 0 <= r4 (sampler (texture (fst (run s inputs)) f) coord).
Proof.
  induction 1 as [ | i rest [Hk Hv] _ IH]; intros s Hs f coord.
  - cbn. apply Hs.
  - rewrite run_cons_state. apply IH. clear f coord. intros f coord.
    destruct (materials i) eqn:Hm; [ | rewrite useFrame_idle by exact Hm; apply Hs].
    destruct (FBO_eqb f (currentFBO s)) eqn:Hf.
    + assert (f = currentFBO s) as ->
        by (destruct f, (currentFBO s); try discriminate; reflexivity).
      rewrite useFrame_written by exact Hm.
      apply Hpos. apply fragment_nonneg; cbn.
      * intros c. apply Hs.
      * apply force_nonneg.
      * exact Hk.
      * exact Hv.
    + unfold useFrame. rewrite Hm. cbn [negb texture]. unfold renderSim.
      rewrite Hf. apply Hs.
Qed.

End RunFacts.

(* ================================================================== *)
(** * Decay without disturbance *)
(* ================================================================== *)

Lemma tent_centre (a : R) : a = 0 -> tent a = 1.
Proof.
  intros ->. unfold tent. rewrite Rabs_R0.
  replace (1 - 512 * 0) with 1 by lra.
  apply Rmax_right. lra.
Qed.

Lemma tent_outside (a : R) : 1 / 512 <= a \/ a <= - (1 / 512) -> tent a = 0.
Proof.
  intros H. unfold tent. apply Rmax_left.
  destruct H as [H | H].
  - rewrite Rabs_right by lra. lra.
  - rewrite Rabs_left1 by lra. lra.
Qed.

Lemma spike_centre : r4 (spike (Vec2 c256 c256)) = 1.
Proof.
  unfold spike. cbn [r4 x2 y2].
  rewrite !tent_centre by lra. lra.
Qed.

Lemma spike_outside (coord : vec2) :
  1 / 512 <= x2 coord - c256 \/ x2 coord - c256 <= - (1 / 512) \/
  1 / 512 <= y2 coord - c256 \/ y2 coord - c256 <= - (1 / 512) ->
  r4 (spike coord) = 0.
Proof.
  intros H. unfold spike. cbn [r4].
  destruct H as [H | [H | [H | H]]].
  - rewrite (tent_outside (x2 coord - c256)) by (left; exact H). ring.
  - rewrite (tent_outside (x2 coord - c256)) by (right; exact H). ring.
  - rewrite (tent_outside (y2 coord - c256)) by (left; exact H). ring.
  - rewrite (tent_outside (y2 coord - c256)) by (right; exact H). ring.
Qed.

(** C4, as stated, fails on a field that is not uniform: without any
    disturbance the cell at the centre of texel (256, 256) of the spike
    holds 1 before the update and 0 after it, not [1 * 0.96]. *)
Lemma spike_cell_does_not_decay :
  z3 (SimulationShader.uMouse restOnSpike) = 0 /\
  SimulationShader.uViscosity restOnSpike = 0.96 /\
  r4 (SimulationShader.uPrev restOnSpike (Vec2 c256 c256)) = 1 /\
  r4 (SimulationShader.fragmentShader restOnSpike (Vec2 c256 c256)) = 0 /\
  r4 (SimulationShader.fragmentShader restOnSpike (Vec2 c256 c256))
  <> r4 (SimulationShader.uPrev restOnSpike (Vec2 c256 c256)) * 0.96 ^ 1.
Proof.
  assert (r4 (SimulationShader.fragmentShader restOnSpike (Vec2 c256 c256)) = 0)
    as Hnew.
  { rewrite fragment_value, brush_zero_force by reflexivity.
    destruct (neighbours_one_texel (SimulationShader.uPrev restOnSpike)
                (Vec2 c256 c256)) as (Ht & Hb & Hl & Hr).
    rewrite Ht, Hb, Hl, Hr. cbn [SimulationShader.uPrev restOnSpike x2 y2].
    rewrite !spike_outside by (cbn [x2 y2]; lra).
    cbn [SimulationShader.uViscosity]. lra. }
  repeat split; try reflexivity.
  - apply spike_centre.
  - exact Hnew.
  - rewrite Hnew. cbn [SimulationShader.uPrev restOnSpike].
    rewrite spike_centre. lra.
Qed.

(** The same in the frame loop, on the 512 x 512 targets with the linear
    filter: [fboA] holds 1 in texel (256, 256) and 0 elsewhere, no hand is in
    view.  The cell at the centre of that texel reads 1 before the tick and 0
    after it. *)
Lemma spike_run_does_not_decay :
  let cell := Vec2 (Linear512.center 256) (Linear512.center 256) in
  let rest := frameInput noHand DEFAULT_PARAMS 0 in
  force (handStatus rest) = 0 /\
  viscosity (params rest) = 0.96 /\
  updates [rest] = 1%nat /\
  currentField spikeState cell = 1 /\
  currentField (fst (run spikeState [rest])) cell = 0 /\
  currentField (fst (run spikeState [rest])) cell
  <> currentField spikeState cell * 0.96 ^ updates [rest].
Proof.
  cbv zeta.
  assert (force (handStatus (frameInput noHand DEFAULT_PARAMS 0)) = 0) as Hforce
    by (unfold force; cbn; lra).
  assert (forall i j x y,
            x = Linear512.center i -> y = Linear512.center j ->
            r4 (@sampler Linear512.gl (texture spikeState (prevFBO spikeState))
                  (Vec2 x y))
            = r4 (Linear512.texelFetch spikeGrid i j)) as Hfetch
    by (intros i j x y Hx Hy; apply (linear512_at_centre spikeGrid i j x y Hx Hy)).
  assert (currentField spikeState
            (Vec2 (Linear512.center 256) (Linear512.center 256)) = 1) as Hold.
  { unfold currentField. rewrite (Hfetch 256%Z 256%Z) by reflexivity.
    reflexivity. }
  assert (currentField
            (fst (run spikeState [frameInput noHand DEFAULT_PARAMS 0]))
            (Vec2 (Linear512.center 256) (Linear512.center 256)) = 0) as Hnew.
  { rewrite run_cons_state. cbn [run fst].
    rewrite currentField_after by reflexivity.
    change (@sampler Linear512.gl) with Linear512.sampler.
    change (@render Linear512.gl) with Linear512.render.
    rewrite (linear512_at_centre _ 256 256) by reflexivity.
    unfold Linear512.texelFetch, Linear512.render.
    change (Linear512.clampToEdge 256) with 256%Z.
    rewrite fragment_value, brush_zero_force by exact Hforce.
    destruct (neighbours_one_texel
                (SimulationShader.uPrev
                   (simUniforms spikeState (frameInput noHand DEFAULT_PARAMS 0)))
                (Vec2 (Linear512.center 256) (Linear512.center 256)))
      as (Ht & Hb & Hl & Hr).
    rewrite Ht, Hb, Hl, Hr. cbn [simUniforms SimulationShader.uPrev x2 y2].
    rewrite (Hfetch 256%Z 257%Z) by (unfold Linear512.center; lra).
    rewrite (Hfetch 256%Z 255%Z) by (unfold Linear512.center; lra).
    rewrite (Hfetch 255%Z 256%Z) by (unfold Linear512.center; lra).
    rewrite (Hfetch 257%Z 256%Z) by (unfold Linear512.center; lra).
    cbn. lra. }
  repeat match goal with |- _ /\ _ => split end.
  - exact Hforce.
  - reflexivity.
  - reflexivity.
  - exact Hold.
  - exact Hnew.
  - rewrite Hnew, Hold. cbn. lra.
Qed.

(** Powers of a decay factor below 1 in absolute value shrink any start
    value below every bound. *)
Lemma decay_vanishes (v0 nu eps : R) :
  Rabs nu < 1 -> 0 < eps ->
  exists N : nat, forall k : nat, (N <= k)%nat -> Rabs (v0 * nu ^ k) < eps.
Proof.
  intros Hnu Heps.
  assert (0 < eps / (Rabs v0 + 1)) as Hy
    by (apply Rdiv_lt_0_compat; [exact Heps | pose proof (Rabs_pos v0); lra]).
  destruct (pow_lt_1_zero nu Hnu _ Hy) as [N HN].
  exists N. intros k Hk.
  specialize (HN k Hk). rewrite Rabs_mult.
  pose proof (Rabs_pos v0) as Hv. pose proof (Rabs_pos (nu ^ k)) as Hp.
  assert (eps = (Rabs v0 + 1) * (eps / (Rabs v0 + 1))) as Heq
    by (field; lra).
  rewrite Heq. nra.
Qed.

(** C4, amended.  For a field that is uniform, every cell [v0], and every
    run of ticks with force 0 and a constant viscosity, every cell holds
    [v0 * viscosity ^ k] after [k] updates, which falls below every bound
    when the viscosity is below 1 in absolute value; a field of 0.5
    everywhere with viscosity 0.96 is 0.48 everywhere after one update. *)
Theorem uniform_decay :
  forall (gl : WebGL), keeps_uniform gl ->
  forall (s : State) (v0 nu : R),
    (forall coord, currentField s coord = v0) ->
    let rest := fun i : FrameInput =>
      force (handStatus i) = 0 /\ viscosity (params i) = nu in
    (forall inputs, Forall rest inputs ->
       forall coord,
         currentField (fst (run s inputs)) coord = v0 * nu ^ updates inputs)
    /\
    (Rabs nu < 1 ->
     forall eps, 0 < eps ->
       exists N : nat, forall inputs, Forall rest inputs ->
         (N <= updates inputs)%nat ->
         forall coord, Rabs (currentField (fst (run s inputs)) coord) < eps)
    /\
    (v0 = 0.5 -> nu = 0.96 ->
     forall i, rest i -> materials i = true ->
       forall coord,
         r4 (SimulationShader.fragmentShader (simUniforms s i) coord) = 0.48 /\
         currentField (useFrame s i) coord = 0.48).
Proof.
  intros gl Huni s v0 nu Hs rest.
  split; [ | split].
  - intros inputs Hin coord. apply (run_uniform Huni nu inputs Hin s v0 Hs).
  - intros Hnu eps Heps.
    destruct (decay_vanishes v0 nu eps Hnu Heps) as [N HN].
    exists N. intros inputs Hin Hk coord.
    rewrite (run_uniform Huni nu inputs Hin s v0 Hs). apply HN. exact Hk.
  - intros Hv0 Hnu96 i [Hforce Hvisc] Hm coord.
    assert (forall vUv,
              r4 (SimulationShader.fragmentShader (simUniforms s i) vUv) = 0.48)
      as Hfrag.
    { intros vUv. rewrite (fragment_uniform (simUniforms s i) v0).
      - cbn. rewrite Hvisc, Hv0, Hnu96. lra.
      - exact Hs.
      - exact Hforce. }
    split; [apply Hfrag | ].
    rewrite currentField_after by exact Hm.
    apply Huni. exact Hfrag.
Qed.

Lemma uniform_decay_witness :
  currentField
    (fst (run (clearedState 0.5)
            [frameInput noHand DEFAULT_PARAMS 0; idleInput;
             frameInput noHand DEFAULT_PARAMS 1]))
    (Vec2 0.5 0.5)
  = 0.5 * 0.96 ^ 2
  /\
  currentField (useFrame (clearedState 0.5) (frameInput noHand DEFAULT_PARAMS 0))
    (Vec2 0.5 0.5)
  = 0.48.
Proof.
  assert (forall coord, currentField (clearedState 0.5) coord = 0.5) as Hstart
    by (intros coord; apply linear512_cleared).
  destruct (uniform_decay Linear512.gl linear512_keeps_uniform
              (clearedState 0.5) 0.5 0.96 Hstart) as (Hrun & _ & Hone).
  split.
  - apply (Hrun [frameInput noHand DEFAULT_PARAMS 0; idleInput;
                 frameInput noHand DEFAULT_PARAMS 1]).
    repeat apply Forall_cons; try apply Forall_nil;
      (split; [unfold force; cbn; lra | cbn; lra]).
  - apply (Hone eq_refl eq_refl (frameInput noHand DEFAULT_PARAMS 0)).
    + split; [unfold force; cbn; lra | cbn; lra].
    + reflexivity.
Defined.

(* ================================================================== *)
(** * Nonnegativity of the field *)
(* ================================================================== *)

(** C10.  One update keeps the field nonnegative: when the previous field
    is nowhere negative and force, ripple strength and viscosity are not
    negative, no cell written is negative.  So from two targets that are 0
    everywhere both targets stay nowhere negative through every run of ticks
    whose ripple strength and viscosity are not negative (the force of the
    mapper never is). *)
Theorem field_nonnegative :
  (forall u : SimulationShader.uniforms sampler2D,
     (forall coord, 0 <= r4 (SimulationShader.uPrev u coord)) ->
     0 <= z3 (SimulationShader.uMouse u) ->
     0 <= SimulationShader.uRippleStrength u ->
     0 <= SimulationShader.uViscosity u ->
     forall vUv, 0 <= r4 (SimulationShader.fragmentShader u vUv))
  /\
  (forall (gl : WebGL), keeps_nonneg gl ->
   forall (a b : Texture) (inputs : list FrameInput),
     (forall coord, r4 (sampler a coord) = 0) ->
     (forall coord, r4 (sampler b coord) = 0) ->
     Forall (fun i => 0 <= rippleStrength (params i) /\ 0 <= viscosity (params i))
       inputs ->
     forall f coord,
       0 <= r4 (sampler (texture (fst (run (initialState a b) inputs)) f) coord)).
Proof.
  split.
  - exact fragment_nonneg.
  - intros gl Hpos a b inputs Ha Hb Hin. apply (run_nonneg Hpos inputs Hin).
    intros f coord. destruct f; cbn; [rewrite Ha | rewrite Hb]; lra.
Qed.

Lemma field_nonnegative_witness :
  0 <= r4 (SimulationShader.fragmentShader pinchOnFlat (Vec2 0.5 0.5)) /\
  0 <= r4 (Linear512.sampler
             (texture (fst (run (clearedState 0)
                              [frameInput pinchCentre DEFAULT_PARAMS 0;
                               frameInput hoverUpperLeft DEFAULT_PARAMS 1]))
                fboB)
             (Vec2 0.5 0.5)).
Proof.
  split.
  - apply (proj1 field_nonnegative pinchOnFlat); cbn; try lra.
    intros coord. lra.
  - apply (proj2 field_nonnegative Linear512.gl linear512_keeps_nonneg
             (Linear512.cleared 0) (Linear512.cleared 0)).
    + intros coord. apply linear512_cleared.
    + intros coord. apply linear512_cleared.
    + repeat constructor; cbn; lra.
Defined.

(* ================================================================== *)
(** * The ping-pong of the two targets *)
(* ================================================================== *)

(** C2.  Take an update (frame N), any ticks after it in which the callback
    returns early, and the next update (frame N+1).  Frame N reads
    [prevFBO] and writes [currentFBO], two different targets, and leaves the
    one it reads as it was; the display shader of frame N has the target
    frame N wrote as its [uData]; frame N+1 reads as [uPrev] the target
    frame N wrote, holding exactly what frame N rendered into it. *)
Theorem ping_pong :
  forall (gl : WebGL) (s : State) (i1 : FrameInput) (idle : list FrameInput)
         (i2 : FrameInput),
    materials i1 = true ->
    Forall (fun i => materials i = false) idle ->
    materials i2 = true ->
    let s1 := useFrame s i1 in
    let s1' := fst (run s1 idle) in
    let s2 := useFrame s1' i2 in
    let written := render (SimulationShader.fragmentShader (simUniforms s i1)) in
    (* frame N *)
    prevFBO s <> currentFBO s /\
    SimulationShader.uPrev (simMaterial s1) = Some (FBOTexture (prevFBO s)) /\
    texture s1 (currentFBO s) = written /\
    texture s1 (prevFBO s) = texture s (prevFBO s) /\
    DisplayShader.uData (displayMaterial s1) = Some (FBOTexture (currentFBO s)) /\
    (forall video,
       DisplayShader.uData (bindDisplay (texture s1) video (displayMaterial s1))
       = sampler written) /\
    (* frame N+1 *)
    prevFBO s1' = currentFBO s /\
    SimulationShader.uPrev (simMaterial s2) = Some (FBOTexture (currentFBO s)) /\
    SimulationShader.uPrev (simUniforms s1' i2) = sampler written /\
    texture s2 (currentFBO s1')
    = render (SimulationShader.fragmentShader (simUniforms s1' i2)) /\
    currentFBO s1' <> currentFBO s.
Proof.
  intros gl s i1 idle i2 H1 Hidle H2. cbv zeta.
  rewrite (run_idle (useFrame s i1) idle Hidle).
  destruct (useFrame_roles s i1 H1) as [Hprev1 Hcur1].
  destruct (useFrame_uniforms s i1 H1) as [HuPrev1 HuData1].
  pose proof (useFrame_written s i1 H1) as Hwritten.
  repeat match goal with |- _ /\ _ => split end.
  - apply prev_current_distinct.
  - exact HuPrev1.
  - exact Hwritten.
  - apply useFrame_kept.
  - exact HuData1.
  - intros video. unfold bindDisplay; cbn [DisplayShader.uData].
    rewrite HuData1. cbn [bind]. rewrite Hwritten. reflexivity.
  - exact Hprev1.
  - destruct (useFrame_uniforms (useFrame s i1) i2 H2) as [HuPrev2 _].
    rewrite HuPrev2, Hprev1. reflexivity.
  - cbn [simUniforms SimulationShader.uPrev].
    rewrite Hprev1, Hwritten. reflexivity.
  - apply useFrame_written. exact H2.
  - rewrite Hcur1. apply prev_current_distinct.
Qed.

Lemma ping_pong_witness :
  SimulationShader.uPrev
    (simMaterial
       (useFrame
          (fst (run (useFrame (clearedState 0)
                       (frameInput pinchCentre DEFAULT_PARAMS 0))
                  [idleInput]))
          (frameInput noHand DEFAULT_PARAMS 1)))
  = Some (FBOTexture fboB).
Proof.
  assert (materials (frameInput pinchCentre DEFAULT_PARAMS 0) = true) as H1
    by reflexivity.
  assert (Forall (fun i => materials i = false) [idleInput]) as Hidle
    by (repeat constructor).
  assert (materials (frameInput noHand DEFAULT_PARAMS 1) = true) as H2
    by reflexivity.
  exact (proj1 (proj2 (proj2 (proj2 (proj2 (proj2 (proj2 (proj2
           (ping_pong Linear512.gl (clearedState 0)
              (frameInput pinchCentre DEFAULT_PARAMS 0) [idleInput]
              (frameInput noHand DEFAULT_PARAMS 1) H1 Hidle H2))))))))).
Defined.

(* ================================================================== *)
(** * The display shader *)
(* ================================================================== *)

(** The distorted coordinate stays inside the clamp. *)
Lemma distortedUv_in_bounds (u : DisplayShader.uniforms sampler2D) (vUv : vec2) :
  0.001 <= x2 (DisplayShader.distortedUv u vUv) <= 0.999 /\
  0.001 <= y2 (DisplayShader.distortedUv u vUv) <= 0.999.
Proof.
  unfold DisplayShader.distortedUv, clamp2. cbn [x2 y2].
  split; apply clamp_bounds; lra.
Qed.

(** The output of the shader, channel by channel. *)
Lemma display_channels (u : DisplayShader.uniforms sampler2D) (vUv : vec2) :
  let out := DisplayShader.fragmentShader u vUv in
  let base := DisplayShader.mixedColor u vUv in
  (DisplayShader.height u vUv <= 0.1 ->
   r4 out = x3 base /\ b4 out = z3 base) /\
  (DisplayShader.height u vUv > 0.1 ->
   r4 out = mix (x3 base)
              (r4 (DisplayShader.uTexture u (DisplayShader.rCoord u vUv))) 0.5 /\
   b4 out = mix (z3 base)
              (b4 (DisplayShader.uTexture u (DisplayShader.bCoord u vUv))) 0.5) /\
  g4 out = y3 base /\
  a4 out = 1.
Proof.
  cbv zeta. unfold DisplayShader.fragmentShader.
  destruct (Rgt_dec (DisplayShader.height u vUv) 0.1) as [Hgt | Hle];
    cbn [r4 g4 b4 a4 r3 g3 b3 x3 y3 z3]; unfold r3, g3, b3, texture2D;
    cbn [x3 y3 z3].
  - repeat split; try reflexivity; try lra.
  - repeat split; try reflexivity; try lra.
Qed.

(** The colour before the aberration is step 7 of the compositor. *)
Lemma mixedColor_spec (u : DisplayShader.uniforms sampler2D) (vUv : vec2) :
  DisplayShader.mixedColor u vUv
  = Spec.finalColor (DisplayShader.camColor u vUv)
      (DisplayShader.highlight u vUv) (DisplayShader.height u vUv).
Proof. reflexivity. Qed.

Lemma mix_half (a b : R) : mix a b 0.5 = Spec.blend5050 a b.
Proof. unfold mix, Spec.blend5050. lra. Qed.

(** C7.  With [base] the colour [camColor.rgb + highlight * height]: when
    the height is at most 0.1 the red and blue channels of the output are
    those of [base]; when it exceeds 0.1 they are the 50/50 blends of those
    with the red channel of the camera image at [distortedUv + (0.002, 0)]
    and its blue channel at [distortedUv - (0.002, 0)]; the green channel is
    that of [base] in both cases and the output is opaque. *)
Theorem chromatic_fringe_gating :
  forall (u : DisplayShader.uniforms sampler2D) (vUv : vec2),
    let out := DisplayShader.fragmentShader u vUv in
    let height := DisplayShader.height u vUv in
    let d := DisplayShader.distortedUv u vUv in
    let base :=
      Spec.finalColor (DisplayShader.uTexture u d)
        (DisplayShader.highlight u vUv) height in
    (height <= 0.1 -> r4 out = x3 base /\ b4 out = z3 base) /\
    (height > 0.1 ->
     r4 out = Spec.blend5050 (x3 base)
                (r4 (DisplayShader.uTexture u (Vec2 (x2 d + 0.002) (y2 d)))) /\
     b4 out = Spec.blend5050 (z3 base)
                (b4 (DisplayShader.uTexture u (Vec2 (x2 d - 0.002) (y2 d))))) /\
    g4 out = y3 base /\
    a4 out = 1.
Proof.
  intros u vUv. cbv zeta.
  destruct (display_channels u vUv) as (Hlow & Hhigh & Hg & Ha).
  rewrite mixedColor_spec in Hlow, Hhigh, Hg.
  unfold DisplayShader.camColor, texture2D in Hlow, Hhigh, Hg.
  split; [exact Hlow | split; [ | split; [exact Hg | exact Ha]]].
  intros Hgt. destruct (Hhigh Hgt) as [Hr Hb].
  rewrite mix_half in Hr, Hb.
  unfold DisplayShader.rCoord, DisplayShader.bCoord, add2, sub2 in Hr, Hb.
  cbn [x2 y2] in Hr, Hb.
  replace (y2 (DisplayShader.distortedUv u vUv) + 0.0)
    with (y2 (DisplayShader.distortedUv u vUv)) in Hr by lra.
  replace (y2 (DisplayShader.distortedUv u vUv) - 0.0)
    with (y2 (DisplayShader.distortedUv u vUv)) in Hb by lra.
  split; assumption.
Qed.

Lemma chromatic_fringe_gating_witness :
  (let u := displayOnFlat 0 0 in
   let vUv := Vec2 0.5 0.5 in
   r4 (DisplayShader.fragmentShader u vUv)
   = x3 (Spec.finalColor (DisplayShader.uTexture u (DisplayShader.distortedUv u vUv))
           (DisplayShader.highlight u vUv) (DisplayShader.height u vUv)))
  /\
  (let u := displayOnFlat 0.5 0 in
   let vUv := Vec2 0.5 0.5 in
   let d := DisplayShader.distortedUv u vUv in
   r4 (DisplayShader.fragmentShader u vUv)
   = Spec.blend5050
       (x3 (Spec.finalColor (DisplayShader.uTexture u d)
              (DisplayShader.highlight u vUv) (DisplayShader.height u vUv)))
       (r4 (DisplayShader.uTexture u (Vec2 (x2 d + 0.002) (y2 d))))).
Proof.
  split; cbv zeta.
  - apply (proj1 (chromatic_fringe_gating (displayOnFlat 0 0) (Vec2 0.5 0.5))).
    unfold DisplayShader.height, texture2D. cbn. lra.
  - apply (proj1 (proj2 (chromatic_fringe_gating (displayOnFlat 0.5 0)
                           (Vec2 0.5 0.5)))).
    unfold DisplayShader.height, texture2D. cbn. lra.
Defined.

(** Over a flat field the normal has no horizontal part, so nothing is
    refracted. *)
Lemma flat_normal (h time : R) (vUv : vec2) :
  x3 (DisplayShader.normal (displayOnFlat h time) vUv) = 0 /\
  y3 (DisplayShader.normal (displayOnFlat h time) vUv) = 0.
Proof.
  unfold DisplayShader.normal, DisplayShader.height, normalize, texture2D.
  cbn [displayOnFlat DisplayShader.uData flat r4 x3 y3].
  replace (h - h) with 0 by lra.
  unfold Rdiv. split; ring.
Qed.

Lemma flat_distortedUv (h time : R) (vUv : vec2) :
  DisplayShader.distortedUv (displayOnFlat h time) vUv
  = Vec2 (clamp (x2 vUv) 0.001 0.999) (clamp (y2 vUv) 0.001 0.999).
Proof.
  unfold DisplayShader.distortedUv, clamp2, sub2, scale2, xy.
  destruct (flat_normal h time vUv) as [-> ->].
  cbn [x2 y2]. f_equal; f_equal; ring.
Qed.

(** C6 at a pixel near the right edge over a flat field of height 0.5.  The
    distorted coordinate is clamped to [(0.999, 0.5)], inside the bounds, but
    the height passes the threshold and the red sample of the chromatic
    aberration is taken from the camera image at [(1.001, 0.5)], beyond its
    right edge; at the mirrored pixel the blue sample is taken at
    [(-0.001, 0.5)], beyond its left edge. *)
Theorem aberration_samples_outside :
  let u := displayOnFlat 0.5 0 in
  (let vUv := Vec2 0.9995 0.5 in
   0.1 < DisplayShader.height u vUv /\
   DisplayShader.distortedUv u vUv = Vec2 0.999 0.5 /\
   In (DisplayShader.rCoord u vUv) (DisplayShader.cameraFetches u vUv) /\
   x2 (DisplayShader.rCoord u vUv) = 1.001 /\
   1 < x2 (DisplayShader.rCoord u vUv))
  /\
  (let vUv := Vec2 0.0005 0.5 in
   0.1 < DisplayShader.height u vUv /\
   DisplayShader.distortedUv u vUv = Vec2 0.001 0.5 /\
   In (DisplayShader.bCoord u vUv) (DisplayShader.cameraFetches u vUv) /\
   x2 (DisplayShader.bCoord u vUv) = -0.001 /\
   x2 (DisplayShader.bCoord u vUv) < 0).
Proof.
  cbv zeta.
  assert (forall vUv, 0.1 < DisplayShader.height (displayOnFlat 0.5 0) vUv)
    as Hheight
    by (intros vUv; unfold DisplayShader.height, texture2D; cbn; lra).
  assert (DisplayShader.distortedUv (displayOnFlat 0.5 0) (Vec2 0.9995 0.5)
          = Vec2 0.999 0.5) as Hright.
  { rewrite flat_distortedUv. cbn [x2 y2].
    rewrite clamp_above by lra. rewrite clamp_inside by lra. reflexivity. }
  assert (DisplayShader.distortedUv (displayOnFlat 0.5 0) (Vec2 0.0005 0.5)
          = Vec2 0.001 0.5) as Hleft.
  { rewrite flat_distortedUv. cbn [x2 y2].
    rewrite clamp_below by lra. rewrite clamp_inside by lra. reflexivity. }
  split.
  - split; [apply Hheight | ]. split; [exact Hright | ].
    split.
    + unfold DisplayShader.cameraFetches.
      destruct (Rgt_dec _ 0.1) as [_ | Hn].
      * right. left. reflexivity.
      * exfalso. apply Hn. apply Hheight.
    + unfold DisplayShader.rCoord. rewrite Hright. cbn [add2 x2]. lra.
  - split; [apply Hheight | ]. split; [exact Hleft | ].
    split.
    + unfold DisplayShader.cameraFetches.
      destruct (Rgt_dec _ 0.1) as [_ | Hn].
      * right. right. left. reflexivity.
      * exfalso. apply Hn. apply Hheight.
    + unfold DisplayShader.bCoord. rewrite Hleft. cbn [sub2 x2]. lra.
Qed.

(* ================================================================== *)
(** * What the picture depends on *)
(* ================================================================== *)

Section DisplayCongruence.
Variables u1 u2 : DisplayShader.uniforms sampler2D.
Hypothesis Hsame : sameDisplayInputs u1 u2.

Lemma height_congruence (vUv : vec2) :
  DisplayShader.height u1 vUv = DisplayShader.height u2 vUv.
Proof.
  destruct Hsame as (Hdata & _).
  unfold DisplayShader.height, texture2D. rewrite Hdata. reflexivity.
Qed.

Lemma normal_congruence (vUv : vec2) :
  DisplayShader.normal u1 vUv = DisplayShader.normal u2 vUv.
Proof.
  destruct Hsame as (Hdata & _).
  unfold DisplayShader.normal, DisplayShader.height, texture2D.
  rewrite !Hdata. reflexivity.
Qed.

Lemma distortedUv_congruence (vUv : vec2) :
  DisplayShader.distortedUv u1 vUv = DisplayShader.distortedUv u2 vUv.
Proof.
  destruct Hsame as (_ & _ & Hrefr & _ & Hdist).
  unfold DisplayShader.distortedUv.
  rewrite normal_congruence, Hrefr, Hdist. reflexivity.
Qed.

Lemma camColor_congruence (vUv : vec2) :
  DisplayShader.camColor u1 vUv = DisplayShader.camColor u2 vUv.
Proof.
  destruct Hsame as (_ & Hcam & _).
  unfold DisplayShader.camColor, texture2D.
  rewrite distortedUv_congruence. apply Hcam.
Qed.

Lemma highlight_congruence (vUv : vec2) :
  DisplayShader.highlight u1 vUv = DisplayShader.highlight u2 vUv.
Proof.
  destruct Hsame as (_ & _ & _ & Hrefl & _).
  unfold DisplayShader.highlight.
  rewrite normal_congruence, Hrefl. reflexivity.
Qed.

Lemma mixedColor_congruence (vUv : vec2) :
  DisplayShader.mixedColor u1 vUv = DisplayShader.mixedColor u2 vUv.
Proof.
  unfold DisplayShader.mixedColor.
  rewrite camColor_congruence, highlight_congruence, height_congruence.
  reflexivity.
Qed.

Lemma display_congruence (vUv : vec2) :
  DisplayShader.fragmentShader u1 vUv = DisplayShader.fragmentShader u2 vUv.
Proof.
  pose proof Hsame as (_ & Hcam & _).
  unfold DisplayShader.fragmentShader, DisplayShader.rCoord,
    DisplayShader.bCoord, texture2D.
  rewrite height_congruence, mixedColor_congruence, distortedUv_congruence.
  rewrite !Hcam. reflexivity.
Qed.

End DisplayCongruence.

(** C8.  The colour of every pixel is a function of the field, the camera
    image and the three scalars refraction, reflection and distortion: two
    runs of the display shader that agree on these give the same colour,
    whatever else differs between them (the [uTime] uniform, and in the
    frame loop the rest of the state). *)
Theorem display_determined :
  forall u1 u2 : DisplayShader.uniforms sampler2D,
    sameDisplayInputs u1 u2 ->
    (forall vUv,
       DisplayShader.fragmentShader u1 vUv = DisplayShader.fragmentShader u2 vUv)
    /\
    (forall (gl : WebGL) (s1 s2 : State) (video1 video2 : option sampler2D),
       bindDisplay (texture s1) video1 (displayMaterial s1) = u1 ->
       bindDisplay (texture s2) video2 (displayMaterial s2) = u2 ->
       forall vUv, displayPass s1 video1 vUv = displayPass s2 video2 vUv).
Proof.
  intros u1 u2 Hsame. split.
  - apply display_congruence. exact Hsame.
  - intros gl s1 s2 video1 video2 H1 H2 vUv. unfold displayPass.
    rewrite H1, H2. apply display_congruence. exact Hsame.
Qed.

Lemma display_determined_witness :
  DisplayShader.fragmentShader (displayOnFlat 0.5 0) (Vec2 0.5 0.5)
  = DisplayShader.fragmentShader (displayOnFlat 0.5 7) (Vec2 0.5 0.5).
Proof.
  apply (proj1 (display_determined (displayOnFlat 0.5 0) (displayOnFlat 0.5 7)
                  (conj (fun _ => eq_refl)
                     (conj (fun _ => eq_refl)
                        (conj eq_refl (conj eq_refl eq_refl)))))).
Defined.

Section TimeFacts.
Context {gl : WebGL}.

Lemma sameButTime_refl (s : State) : sameButTime s s.
Proof. unfold sameButTime. repeat split; reflexivity. Qed.

Lemma useFrame_sameButTime (s1 s2 : State) (i j : FrameInput) :
  sameButTime s1 s2 -> sameButSpeedAndWaveHeightInput i j ->
  sameButTime (useFrame s1 i) (useFrame s2 j).
Proof.
  intros Hs Hin.
  pose proof Hs as (Htex & Hswap & Hsim & HuT & HuD & Hrefr & Hrefl & Hdist).
  destruct Hin as (Hm & Hh & (Prefl & Prefr & Pdist & Pripple & Pvisc) & Hv & _).
  unfold useFrame. rewrite <- Hm.
  destruct (materials i); cbn [negb]; [ | exact Hs].
  unfold sameButTime, currentFBO, prevFBO.
  cbn [texture swap simMaterial displayMaterial DisplayShader.uTexture
       DisplayShader.uData DisplayShader.uRefraction DisplayShader.uReflection
       DisplayShader.uDistortion].
  rewrite <- Htex, <- Hswap, <- Hh, <- Prefl, <- Prefr, <- Pdist, <- Pripple,
    <- Pvisc, <- Hv, <- HuT.
  repeat split; reflexivity.
Qed.

Lemma displayPass_sameButTime (s1 s2 : State) (video : option sampler2D) :
  sameButTime s1 s2 -> samePicture (displayPass s1 video) (displayPass s2 video).
Proof.
  intros (Htex & _ & _ & HuT & HuD & Hrefr & Hrefl & Hdist) vUv.
  unfold displayPass. apply display_congruence.
  unfold sameDisplayInputs, bindDisplay.
  cbn [DisplayShader.uTexture DisplayShader.uData DisplayShader.uRefraction
       DisplayShader.uReflection DisplayShader.uDistortion].
  rewrite Htex, HuT, HuD, Hrefr, Hrefl, Hdist.
  repeat split; reflexivity.
Qed.

Lemma run_sameButTime (inputs1 inputs2 : list FrameInput) :
  Forall2 sameButSpeedAndWaveHeightInput inputs1 inputs2 ->
  forall s1 s2 : State,
    sameButTime s1 s2 ->
    Forall2 samePicture (snd (run s1 inputs1)) (snd (run s2 inputs2)) /\
    sameButTime (fst (run s1 inputs1)) (fst (run s2 inputs2)).
Proof.
  induction 1 as [ | i j rest1 rest2 Hij _ IH]; intros s1 s2 Hs.
  - cbn. split; [constructor | exact Hs].
  - rewrite !run_cons_state, !run_cons_pictures.
    pose proof (useFrame_sameButTime s1 s2 i j Hs Hij) as Hs'.
    destruct (IH _ _ Hs') as [Hpics Hfinal].
    split; [ | exact Hfinal].
    constructor; [ | exact Hpics].
    destruct Hij as (_ & _ & _ & Hv & _). rewrite <- Hv.
    apply displayPass_sameButTime. exact Hs'.
Qed.

End TimeFacts.

(** C9.  Two runs of the frame loop from the same state whose inputs differ
    at most in the parameters [speed] and [waveHeight] show the same colour
    at every pixel of every frame, and leave the same textures, the same
    ping-pong flag and the same uniforms, [uTime] apart: [speed] only
    reaches [uTime], which the display shader does not read, and
    [waveHeight] reaches nothing. *)
Theorem speed_and_waveHeight_unobservable :
  forall (gl : WebGL) (s : State) (inputs1 inputs2 : list FrameInput),
    Forall2 sameButSpeedAndWaveHeightInput inputs1 inputs2 ->
    Forall2 samePicture (snd (run s inputs1)) (snd (run s inputs2)) /\
    sameButTime (fst (run s inputs1)) (fst (run s inputs2)).
Proof.
  intros gl s inputs1 inputs2 Hin.
  apply (run_sameButTime inputs1 inputs2 Hin s s (sameButTime_refl s)).
Qed.

Lemma speed_and_waveHeight_unobservable_witness :
  Forall2 samePicture
    (snd (run (clearedState 0)
            [frameInput pinchCentre DEFAULT_PARAMS 0;
             frameInput noHand DEFAULT_PARAMS 1]))
    (snd (run (clearedState 0)
            [frameInput pinchCentre fastTallParams 0;
             frameInput noHand fastTallParams 1])).
Proof.
  apply (speed_and_waveHeight_unobservable Linear512.gl (clearedState 0)
           [frameInput pinchCentre DEFAULT_PARAMS 0;
            frameInput noHand DEFAULT_PARAMS 1]
           [frameInput pinchCentre fastTallParams 0;
            frameInput noHand fastTallParams 1]).
  repeat constructor.
Defined.

(* ================================================================== *)
(** * The hand-status producer *)
(* ================================================================== *)

(** The depth proxy of every published status lies in [0, 1]: a detected
    hand clamps it, a lost hand keeps the last one, and it starts at 0. *)
Lemma published_depth_range (h : HandStatus) :
  published h -> 0 <= distance h <= 1.
Proof.
  induction 1 as [ | landmarks prev _ IH].
  - cbn. lra.
  - destruct landmarks as [ | hand rest]; cbn [predict].
    + exact IH.
    + cbn [detectedStatus distance]. split.
      * apply Rmin_glb; [apply Rmax_r | lra].
      * apply Rmin_r.
Qed.

(** The square root of a sum of squares is below a positive threshold
    exactly when the sum is below its square. *)
Lemma sqrt_lt_threshold (S t : R) :
  0 <= S -> 0 < t -> (sqrt S < t <-> S < t * t).
Proof.
  intros HS Ht. split; intros H.
  - rewrite <- (sqrt_sqrt S HS).
    pose proof (sqrt_pos S) as Hpos.
    apply Rmult_le_0_lt_compat; assumption.
  - rewrite <- (sqrt_square t) by lra.
    apply sqrt_lt_1_alt. split; assumption.
Qed.

(** X2.  A detected hand pinches exactly when the squared distance between
    thumb tip and index tip, depth included, is below [0.08 * 0.08]; at the
    distance 0.08 itself it does not. *)
Theorem pinch_threshold (landmarks : nat -> landmark.t) :
  let dx := landmark.x (landmarks 4%nat) - landmark.x (landmarks 8%nat) in
  let dy := landmark.y (landmarks 4%nat) - landmark.y (landmarks 8%nat) in
  let dz := landmark.z (landmarks 4%nat) - landmark.z (landmarks 8%nat) in
  pinching (detectedStatus landmarks) = true
  <-> dx * dx + dy * dy + dz * dz < 0.0064.
Proof.
  cbv zeta. cbn [detectedStatus pinching].
  match goal with |- context [sqrt ?a] => set (S := a) end.
  assert (0 <= S) as HS
    by (unfold S; repeat apply Rplus_le_le_0_compat; apply Rle_0_sqr).
  pose proof (sqrt_lt_threshold S 0.08 HS) as Hiff.
  destruct (Rlt_dec (sqrt S) 0.08) as [Hlt | Hge].
  - split; [intros _ | reflexivity].
    assert (S < 0.08 * 0.08) by (apply Hiff; lra). lra.
  - split; [discriminate | intros Hlt].
    exfalso. apply Hge. apply Hiff; lra.
Qed.

Lemma pinch_threshold_witness :
  pinching (detectedStatus closedHand) = true /\
  pinching (detectedStatus openHand) <> true.
Proof.
  split.
  - apply (proj2 (pinch_threshold closedHand)). cbn. lra.
  - intros Hp. apply (proj1 (pinch_threshold openHand)) in Hp. cbn in Hp. lra.
Defined.

(** The mapped position of a detected hand is its position, flipped
    vertically. *)
Lemma mouse_detected (h : HandStatus) :
  detected h = true ->
  mouseX h = position.x (position h) /\ mouseY h = 1 - position.y (position h).
Proof. intros Hd. unfold mouseX, mouseY. rewrite Hd. split; lra. Qed.

(** X3.  When thumb tip and index tip of a detected hand lie in the unit
    square, the disturbance position is the midpoint of the two tips with
    the vertical axis flipped and lies in the unit square, and the force is
    1 or 0.2. *)
Theorem detected_disturbance_on_grid (landmarks : nat -> landmark.t) :
  let thumbTip := landmarks 4%nat in
  let indexTip := landmarks 8%nat in
  let h := detectedStatus landmarks in
  0 <= landmark.x thumbTip <= 1 -> 0 <= landmark.y thumbTip <= 1 ->
  0 <= landmark.x indexTip <= 1 -> 0 <= landmark.y indexTip <= 1 ->
  mouseX h = (landmark.x thumbTip + landmark.x indexTip) / 2 /\
  mouseY h = 1 - (landmark.y thumbTip + landmark.y indexTip) / 2 /\
  0 <= mouseX h <= 1 /\ 0 <= mouseY h <= 1 /\
  (force h = 1 \/ force h = 0.2).
Proof.
  cbv zeta. intros Htx Hty Hix Hiy.
  destruct (mouse_detected (detectedStatus landmarks) eq_refl) as [Hx Hy].
  cbn [detectedStatus position position.x position.y] in Hx, Hy.
  rewrite Hx, Hy.
  repeat match goal with |- _ /\ _ => split end; try lra.
  unfold force. cbn [detectedStatus pinching detected].
  destruct (Rlt_dec _ 0.08); [left | right]; lra.
Qed.

Lemma detected_disturbance_on_grid_witness :
  mouseX (detectedStatus openHand) = (0.2 + 0.4) / 2 /\
  mouseY (detectedStatus openHand) = 1 - (0.3 + 0.3) / 2.
Proof.
  destruct (detected_disturbance_on_grid openHand) as (Hx & Hy & _);
    [cbn; lra .. | ].
  split; [exact Hx | exact Hy].
Defined.

(* ================================================================== *)
(** * The shape of the brush *)
(* ================================================================== *)

Lemma clamp_monotone (a b lo hi : R) :
  a <= b -> clamp a lo hi <= clamp b lo hi.
Proof.
  intros H. unfold clamp, min, max.
  apply Rle_min_compat_r. apply Rle_max_compat_r. exact H.
Qed.

Lemma hermite_monotone (t1 t2 : R) :
  0 <= t1 -> t1 <= t2 -> t2 <= 1 ->
  t1 * t1 * (3.0 - 2.0 * t1) <= t2 * t2 * (3.0 - 2.0 * t2).
Proof.
  intros H0 H12 H1.
  assert (0 <= (t2 - t1) * (3 * (t1 + t2) - 2 * (t1 * t1 + t1 * t2 + t2 * t2)))
    by (apply Rmult_le_pos; [lra | nra]).
  nra.
Qed.

(** The falling edge of the brush does fall. *)
Lemma smoothstep_brush_falling (d1 d2 : R) :
  d1 <= d2 -> smoothstep 0.05 0.0 d2 <= smoothstep 0.05 0.0 d1.
Proof.
  intros Hd. unfold smoothstep.
  assert (0.0 <= 1.0) as H01 by lra.
  pose proof (clamp_bounds ((d1 - 0.05) / (0.0 - 0.05)) 0.0 1.0 H01) as [_ H1].
  pose proof (clamp_bounds ((d2 - 0.05) / (0.0 - 0.05)) 0.0 1.0 H01) as [H0 _].
  assert (clamp ((d2 - 0.05) / (0.0 - 0.05)) 0.0 1.0
          <= clamp ((d1 - 0.05) / (0.0 - 0.05)) 0.0 1.0) as Hle.
  { apply clamp_monotone.
    replace ((d2 - 0.05) / (0.0 - 0.05)) with ((0.05 - d2) * 20) by lra.
    replace ((d1 - 0.05) / (0.0 - 0.05)) with ((0.05 - d1) * 20) by lra.
    lra. }
  apply hermite_monotone; lra.
Qed.

Lemma brush_at_position (uMouse : vec3) (rippleStrength : R) :
  SimulationShader.brush uMouse rippleStrength (xy uMouse)
  = z3 uMouse * rippleStrength.
Proof.
  unfold SimulationShader.brush. rewrite distance_self, smoothstep_brush_centre.
  ring.
Qed.

Lemma brush_range (uMouse : vec3) (rippleStrength : R) (vUv : vec2) :
  0 <= z3 uMouse -> 0 <= rippleStrength ->
  0 <= SimulationShader.brush uMouse rippleStrength vUv
    <= z3 uMouse * rippleStrength.
Proof.
  intros Hf Hk. unfold SimulationShader.brush.
  pose proof (smoothstep_range 0.05 0.0 (GLSL.distance vUv (xy uMouse)))
    as [H0 H1].
  set (w := smoothstep _ _ _) in *. clearbody w.
  assert (0 <= z3 uMouse * rippleStrength) as Hfk
    by (apply Rmult_le_pos; assumption).
  rewrite Rmult_assoc. split.
  - apply Rmult_le_pos; assumption.
  - rewrite <- (Rmult_1_l (z3 uMouse * rippleStrength)) at 2.
    apply Rmult_le_compat_r; assumption.
Qed.

Lemma brush_falling (uMouse : vec3) (rippleStrength : R) (vUv1 vUv2 : vec2) :
  0 <= z3 uMouse -> 0 <= rippleStrength ->
  GLSL.distance vUv1 (xy uMouse) <= GLSL.distance vUv2 (xy uMouse) ->
  SimulationShader.brush uMouse rippleStrength vUv2
  <= SimulationShader.brush uMouse rippleStrength vUv1.
Proof.
  intros Hf Hk Hd. unfold SimulationShader.brush.
  rewrite !Rmult_assoc.
  apply Rmult_le_compat_r; [apply Rmult_le_pos; assumption | ].
  apply smoothstep_brush_falling. exact Hd.
Qed.

(** X4.  At the disturbance position itself the brush is [force *
    rippleStrength]; for a force and a ripple strength that are not
    negative it lies between 0 and that value everywhere, and it does not
    grow with the distance from the position. *)
Theorem brush_profile :
  forall (uMouse : vec3) (rippleStrength : R),
    SimulationShader.brush uMouse rippleStrength (xy uMouse)
    = z3 uMouse * rippleStrength /\
    (0 <= z3 uMouse -> 0 <= rippleStrength ->
     (forall vUv,
        0 <= SimulationShader.brush uMouse rippleStrength vUv
          <= z3 uMouse * rippleStrength) /\
     (forall vUv1 vUv2,
        GLSL.distance vUv1 (xy uMouse) <= GLSL.distance vUv2 (xy uMouse) ->
        SimulationShader.brush uMouse rippleStrength vUv2
        <= SimulationShader.brush uMouse rippleStrength vUv1)).
Proof.
  intros uMouse k. split; [apply brush_at_position | ].
  intros Hf Hk. split.
  - intros vUv. apply brush_range; assumption.
  - intros vUv1 vUv2 Hd. apply brush_falling; assumption.
Qed.

Lemma brush_profile_witness :
  0 <= SimulationShader.brush (Vec3 0.5 0.5 1) 0.6 (Vec2 0.51 0.5) <= 1 * 0.6 /\
  SimulationShader.brush (Vec3 0.5 0.5 1) 0.6 (Vec2 0.51 0.5)
  <= SimulationShader.brush (Vec3 0.5 0.5 1) 0.6 (Vec2 0.5 0.5).
Proof.
  destruct (brush_profile (Vec3 0.5 0.5 1) 0.6) as [_ Hb].
  destruct Hb as [Hrange Hfalling]; [cbn; lra | lra | ].
  split; [apply Hrange | ].
  apply Hfalling.
  change (xy (Vec3 0.5 0.5 1)) with (Vec2 0.5 0.5).
  rewrite distance_self. apply distance_nonneg.
Defined.

(* ================================================================== *)
(** * Bounds on the field *)
(* ================================================================== *)

Lemma fragment_between (u : SimulationShader.uniforms sampler2D) (m M : R) :
  (forall coord, m <= r4 (SimulationShader.uPrev u coord) <= M) ->
  0 <= z3 (SimulationShader.uMouse u) ->
  0 <= SimulationShader.uRippleStrength u ->
  0 <= SimulationShader.uViscosity u ->
  forall vUv,
    m * SimulationShader.uViscosity u
    <= r4 (SimulationShader.fragmentShader u vUv)
    <= (M + z3 (SimulationShader.uMouse u) * SimulationShader.uRippleStrength u)
       * SimulationShader.uViscosity u.
Proof.
  intros Hprev Hf Hk Hv vUv. rewrite fragment_value.
  pose proof (brush_range (SimulationShader.uMouse u)
                (SimulationShader.uRippleStrength u) vUv Hf Hk) as Hrange.
  unfold SimulationShader.top, SimulationShader.bottom, SimulationShader.left,
    SimulationShader.right, texture2D.
  pose proof (Hprev (add2 vUv (Vec2 0.0 (y2 SimulationShader.texel)))) as Ht.
  pose proof (Hprev (sub2 vUv (Vec2 0.0 (y2 SimulationShader.texel)))) as Hb.
  pose proof (Hprev (sub2 vUv (Vec2 (x2 SimulationShader.texel) 0.0))) as Hl.
  pose proof (Hprev (add2 vUv (Vec2 (x2 SimulationShader.texel) 0.0))) as Hr.
  split; apply Rmult_le_compat_r; try exact Hv; lra.
Qed.

(** The force of the mapper is at most 1. *)
Lemma force_le_1 (h : HandStatus) : force h <= 1.
Proof. unfold force. destruct (pinching h), (detected h); lra. Qed.

Lemma fieldBound_nonneg (rho nu : R) :
  0 <= rho -> 0 <= nu < 1 -> 0 <= fieldBound rho nu.
Proof.
  intros Hrho [Hnu0 Hnu1]. unfold fieldBound.
  apply Rmult_le_pos; [apply Rmult_le_pos; assumption | ].
  left. apply Rinv_0_lt_compat. lra.
Qed.

Lemma fieldBound_fixed (rho nu : R) :
  nu < 1 -> (fieldBound rho nu + rho) * nu = fieldBound rho nu.
Proof. intros Hnu. unfold fieldBound. field. lra. Qed.

Lemma linear512_keeps_bound : keeps_bound Linear512.gl.
Proof.
  intros f M Hf coord. cbn.
  unfold Linear512.sampler, Linear512.mix4, Linear512.texelFetch,
    Linear512.render.
  cbn [r4].
  assert (forall a b t, a <= M -> b <= M -> 0 <= t <= 1 -> mix a b t <= M)
    as Hmix by (intros a b t Ha Hb Ht; unfold mix; nra).
  repeat apply Hmix; try apply Hf; apply frac_part_range.
Qed.

Section BoundFacts.
Context {gl : WebGL}.

(** One tick keeps both targets between 0 and the bound. *)
Lemma useFrame_bounded (Hpos : keeps_nonneg gl) (Hbound : keeps_bound gl)
    (rho nu : R) (s : State) (i : FrameInput) :
  0 <= nu < 1 ->
  0 <= rippleStrength (params i) <= rho ->
  0 <= viscosity (params i) <= nu ->
  (forall f coord, 0 <= r4 (sampler (texture s f) coord) <= fieldBound rho nu) ->
  forall f coord,
    0 <= r4 (sampler (texture (useFrame s i) f) coord) <= fieldBound rho nu.
Proof.
  intros Hnu Hk Hv Hs f coord.
  destruct (materials i) eqn:Hm; [ | rewrite useFrame_idle by exact Hm; apply Hs].
  destruct (FBO_eqb f (currentFBO s)) eqn:Hf.
  - assert (f = currentFBO s) as ->
      by (destruct f, (currentFBO s); try discriminate; reflexivity).
    rewrite useFrame_written by exact Hm.
    assert (0 <= rho) as Hrho by lra.
    pose proof (fieldBound_nonneg rho nu Hrho Hnu) as HB.
    pose proof (fieldBound_fixed rho nu (proj2 Hnu)) as Hfix.
    pose proof (force_nonneg (handStatus i)) as Hf0.
    pose proof (force_le_1 (handStatus i)) as Hf1.
    assert (forall vUv,
              0 * viscosity (params i)
              <= r4 (SimulationShader.fragmentShader (simUniforms s i) vUv)
              <= (fieldBound rho nu
                  + force (handStatus i) * rippleStrength (params i))
                 * viscosity (params i)) as Hfrag.
    { intros vUv.
      apply (fragment_between (simUniforms s i) 0 (fieldBound rho nu)); cbn.
      - intros c. apply Hs.
      - exact Hf0.
      - lra.
      - lra. }
    split.
    + apply Hpos. intros vUv. specialize (Hfrag vUv). lra.
    + apply Hbound. intros vUv. specialize (Hfrag vUv).
      set (B := fieldBound rho nu) in *.
      set (frc := force (handStatus i)) in *.
      set (k := rippleStrength (params i)) in *.
      set (v := viscosity (params i)) in *.
      assert (frc * k <= rho) by nra.
      assert (0 <= frc * k) by nra.
      assert ((B + frc * k) * v <= (B + rho) * nu) by nra.
      lra.
  - unfold useFrame. rewrite Hm. cbn [negb texture]. unfold renderSim.
    rewrite Hf. apply Hs.
Qed.

Lemma run_bounded (Hpos : keeps_nonneg gl) (Hbound : keeps_bound gl)
    (rho nu : R) (inputs : list FrameInput) :
  0 <= nu < 1 ->
  Forall (fun i => 0 <= rippleStrength (params i) <= rho /\
                   0 <= viscosity (params i) <= nu) inputs ->
  forall s : State,
    (forall f coord, 0 <= r4 (sampler (texture s f) coord) <= fieldBound rho nu) ->
    forall f coord,
      0 <= r4 (sampler (texture (fst (run s inputs)) f) coord)
        <= fieldBound rho nu.
Proof.
  intros Hnu. induction 1 as [ | i rest [Hk Hv] _ IH]; intros s Hs.
  - cbn. exact Hs.
  - intros f coord. rewrite run_cons_state. apply IH.
    apply (useFrame_bounded Hpos Hbound rho nu s i Hnu Hk Hv Hs).
Qed.

End BoundFacts.

(** X5.  One update keeps the field between bounds: when the previous
    field lies between [m] and [M] everywhere and force, ripple strength and
    viscosity are not negative, every new value lies between
    [m * viscosity] and [(M + force * rippleStrength) * viscosity]. *)
Theorem update_between_bounds :
  forall (u : SimulationShader.uniforms sampler2D) (m M : R),
    (forall coord, m <= r4 (SimulationShader.uPrev u coord) <= M) ->
    0 <= z3 (SimulationShader.uMouse u) ->
    0 <= SimulationShader.uRippleStrength u ->
    0 <= SimulationShader.uViscosity u ->
    forall vUv,
      m * SimulationShader.uViscosity u
      <= r4 (SimulationShader.fragmentShader u vUv)
      <= (M + z3 (SimulationShader.uMouse u) * SimulationShader.uRippleStrength u)
         * SimulationShader.uViscosity u.
Proof.
  intros u m M. apply fragment_between.
Qed.

Lemma update_between_bounds_witness :
  0.5 * 0.96
  <= r4 (SimulationShader.fragmentShader pinchOnFlat (Vec2 0.5 0.5))
  <= (0.5 + 1 * 0.6) * 0.96.
Proof.
  apply (update_between_bounds pinchOnFlat 0.5 0.5); cbn; try lra.
  intros coord. lra.
Defined.

(** X6.  Through every run of ticks whose viscosity stays in [0, nu] with
    [nu < 1] and whose ripple strength stays in [0, rho], a field that starts
    at 0 in both targets stays between 0 and [rho * nu / (1 - nu)] in both:
    14.4 for the default parameters. *)
Theorem field_stays_bounded :
  forall (gl : WebGL), keeps_nonneg gl -> keeps_bound gl ->
  forall (rho nu : R) (a b : Texture) (inputs : list FrameInput),
    0 <= rho -> 0 <= nu < 1 ->
    (forall coord, r4 (sampler a coord) = 0) ->
    (forall coord, r4 (sampler b coord) = 0) ->
    Forall (fun i => 0 <= rippleStrength (params i) <= rho /\
                     0 <= viscosity (params i) <= nu) inputs ->
    forall f coord,
      0 <= r4 (sampler (texture (fst (run (initialState a b) inputs)) f) coord)
        <= rho * nu / (1 - nu).
Proof.
  intros gl Hpos Hbound rho nu a b inputs Hrho Hnu Ha Hb Hin.
  apply (run_bounded Hpos Hbound rho nu inputs Hnu Hin).
  pose proof (fieldBound_nonneg rho nu Hrho Hnu) as HB.
  intros f coord. destruct f; cbn [initialState texture];
    [rewrite Ha | rewrite Hb]; lra.
Qed.

Lemma field_stays_bounded_witness :
  0 <= r4 (Linear512.sampler
             (texture (fst (run (clearedState 0)
                              [frameInput pinchCentre DEFAULT_PARAMS 0;
                               frameInput pinchCentre DEFAULT_PARAMS 1]))
                fboA)
             (Vec2 0.5 0.5))
    <= 0.6 * 0.96 / (1 - 0.96).
Proof.
  apply (field_stays_bounded Linear512.gl linear512_keeps_nonneg
           linear512_keeps_bound 0.6 0.96
           (Linear512.cleared 0) (Linear512.cleared 0)).
  - lra.
  - lra.
  - intros coord. apply linear512_cleared.
  - intros coord. apply linear512_cleared.
  - repeat constructor; cbn; lra.
Defined.

(* ================================================================== *)
(** * Where the disturbance lands *)
(* ================================================================== *)

Section HitFacts.
Context {gl : WebGL}.



End HitFacts.



(* ================================================================== *)
(** * The field at rest *)
(* ================================================================== *)

Section RestFacts.
Context {gl : WebGL}.

Lemma run_rest (Huni : keeps_uniform gl) (inputs : list FrameInput) :
  Forall (fun i => force (handStatus i) = 0) inputs ->
  forall s : State,
    (forall coord, currentField s coord = 0) ->
    forall coord, currentField (fst (run s inputs)) coord = 0.
Proof.
  induction 1 as [ | i rest Hforce _ IH]; intros s Hs coord.
  - cbn. apply Hs.
  - rewrite run_cons_state. apply IH. clear coord. intros coord.
    destruct (materials i) eqn:Hm; [ | rewrite useFrame_idle by exact Hm; apply Hs].
    rewrite currentField_after by exact Hm.
    apply Huni. intros vUv.
    rewrite (fragment_uniform (simUniforms s i) 0).
    + ring.
    + exact Hs.
    + exact Hforce.
Qed.

End RestFacts.

(** Over a field that is uniform the normal points straight up. *)
Lemma uniform_field_normal (u : DisplayShader.uniforms sampler2D) (h : R)
    (vUv : vec2) :
  (forall coord, r4 (DisplayShader.uData u coord) = h) ->
  x3 (DisplayShader.normal u vUv) = 0 /\ y3 (DisplayShader.normal u vUv) = 0.
Proof.
  intros Hflat.
  unfold DisplayShader.normal, DisplayShader.height, normalize, texture2D.
  cbn [x3 y3]. rewrite !Hflat.
  replace (h - h) with 0 by lra.
  unfold Rdiv. split; ring.
Qed.

Lemma uniform_field_distortedUv (u : DisplayShader.uniforms sampler2D) (h : R)
    (vUv : vec2) :
  (forall coord, r4 (DisplayShader.uData u coord) = h) ->
  DisplayShader.distortedUv u vUv = clamp2 vUv 0.001 0.999.
Proof.
  intros Hflat.
  unfold DisplayShader.distortedUv, clamp2, sub2, scale2, xy.
  destruct (uniform_field_normal u h vUv Hflat) as [-> ->].
  cbn [x2 y2]. f_equal; f_equal; ring.
Qed.

(** The picture over a field that is 0 everywhere. *)
Lemma display_at_rest (u : DisplayShader.uniforms sampler2D) (vUv : vec2) :
  (forall coord, r4 (DisplayShader.uData u coord) = 0) ->
  DisplayShader.fragmentShader u vUv
  = Vec4 (r4 (DisplayShader.uTexture u (clamp2 vUv 0.001 0.999)))
         (g4 (DisplayShader.uTexture u (clamp2 vUv 0.001 0.999)))
         (b4 (DisplayShader.uTexture u (clamp2 vUv 0.001 0.999)))
         1.
Proof.
  intros Hzero.
  assert (DisplayShader.height u vUv = 0) as Hh
    by (unfold DisplayShader.height, texture2D; apply Hzero).
  unfold DisplayShader.fragmentShader.
  destruct (Rgt_dec (DisplayShader.height u vUv) 0.1) as [Hgt | _];
    [rewrite Hh in Hgt; lra | ].
  unfold DisplayShader.mixedColor, DisplayShader.camColor, texture2D.
  rewrite (uniform_field_distortedUv u 0 vUv Hzero), Hh.
  unfold r3, g3, b3, add3, scale3, rgb. cbn [x3 y3 z3 r4 g4 b4].
  f_equal; lra.
Qed.

(** X8.  Over a field that is uniform nothing is refracted, whatever the
    refraction and distortion parameters: the camera image is sampled at the
    pixel's own coordinate, clamped to [0.001, 0.999].  Over a field that is
    0 everywhere the pixel shows exactly that camera sample, opaque. *)
Theorem flat_field_shows_camera :
  forall (u : DisplayShader.uniforms sampler2D) (h : R),
    (forall coord, r4 (DisplayShader.uData u coord) = h) ->
    forall vUv,
      DisplayShader.distortedUv u vUv = clamp2 vUv 0.001 0.999 /\
      (h = 0 ->
       DisplayShader.fragmentShader u vUv
       = Vec4 (r4 (DisplayShader.uTexture u (clamp2 vUv 0.001 0.999)))
              (g4 (DisplayShader.uTexture u (clamp2 vUv 0.001 0.999)))
              (b4 (DisplayShader.uTexture u (clamp2 vUv 0.001 0.999)))
              1).
Proof.
  intros u h Hflat vUv. split.
  - apply (uniform_field_distortedUv u h vUv Hflat).
  - intros ->. apply display_at_rest. exact Hflat.
Qed.

Lemma flat_field_shows_camera_witness :
  DisplayShader.fragmentShader (displayOnFlat 0 0) (Vec2 0.5 0.5)
  = Vec4 0.25 0.25 0.25 1.
Proof.
  destruct (flat_field_shows_camera (displayOnFlat 0 0) 0
              (fun _ => eq_refl) (Vec2 0.5 0.5)) as [_ Hshow].
  rewrite (Hshow eq_refl). reflexivity.
Defined.

Section RestPictures.
Context {gl : WebGL}.

Lemma tick_rest_picture (Huni : keeps_uniform gl) (s : State) (i : FrameInput)
    (image : sampler2D) :
  (forall coord, currentField s coord = 0) ->
  materials i = true -> force (handStatus i) = 0 ->
  videoTexture i = Some image ->
  samePicture (displayPass (useFrame s i) (videoTexture i)) (unrefracted image).
Proof.
  intros Hs Hm Hforce Hvideo vUv.
  assert (forall coord, currentField (useFrame s i) coord = 0) as Hs'.
  { intros coord.
    pose proof (run_rest Huni [i] (Forall_cons i Hforce (Forall_nil _)) s Hs coord)
      as H.
    rewrite run_cons_state in H. exact H. }
  unfold displayPass. rewrite display_at_rest.
  - unfold unrefracted, bindDisplay. cbn [DisplayShader.uTexture].
    unfold useFrame. rewrite Hm, Hvideo. cbn. reflexivity.
  - intros coord. unfold bindDisplay. cbn [DisplayShader.uData].
    destruct (useFrame_uniforms s i Hm) as [_ HuData]. rewrite HuData.
    cbn [bind].
    destruct (useFrame_roles s i Hm) as [Hprev _].
    specialize (Hs' coord). unfold currentField in Hs'.
    rewrite Hprev in Hs'. exact Hs'.
Qed.

End RestPictures.

(** X9.  While no force is applied, a field that is 0 everywhere stays 0
    everywhere, whatever the parameters, and every tick in which the callback
    runs and the video texture exists shows the camera image of that tick
    unrefracted and without highlight. *)
Theorem rest_shows_camera :
  forall (gl : WebGL), keeps_uniform gl ->
  forall (s : State) (inputs : list FrameInput),
    (forall coord, currentField s coord = 0) ->
    Forall (fun i => force (handStatus i) = 0) inputs ->
    (forall coord, currentField (fst (run s inputs)) coord = 0) /\
    (Forall (fun i => materials i = true /\ videoTexture i <> None) inputs ->
     Forall2 (fun i picture =>
                exists image, videoTexture i = Some image /\
                              samePicture picture (unrefracted image))
       inputs (snd (run s inputs))).
Proof.
  intros gl Huni s inputs Hs Hrest. split.
  - apply (run_rest Huni inputs Hrest s Hs).
  - intros Hready. revert s Hs.
    induction Hrest as [ | i rest Hforce Hrest' IH]; intros s Hs.
    + cbn. constructor.
    + inversion Hready as [ | i' rest' [Hm Hvideo] Hready' ]; subst.
      rewrite run_cons_pictures. constructor.
      * destruct (videoTexture i) as [image | ] eqn:Hv; [ | contradiction Hvideo; reflexivity].
        exists image. split; [reflexivity | ].
        rewrite <- Hv. apply (tick_rest_picture Huni s i image Hs Hm Hforce Hv).
      * apply (IH Hready').
        intros coord.
        pose proof (run_rest Huni [i] (Forall_cons i Hforce (Forall_nil _)) s Hs
                      coord) as H.
        rewrite run_cons_state in H. exact H.
Qed.

Lemma rest_shows_camera_witness :
  let inputs :=
    [frameInput noHand DEFAULT_PARAMS 0; frameInput noHand fastTallParams 1] in
  currentField (fst (run (clearedState 0) inputs)) (Vec2 0.5 0.5) = 0 /\
  Forall2 (fun i picture =>
             exists image, videoTexture i = Some image /\
                           samePicture picture (unrefracted image))
    inputs (snd (run (clearedState 0) inputs)).
Proof.
  cbv zeta.
  assert (Forall (fun i => force (handStatus i) = 0)
            [frameInput noHand DEFAULT_PARAMS 0; frameInput noHand fastTallParams 1])
    as Hrest
    by (repeat apply Forall_cons; try apply Forall_nil; unfold force; cbn; lra).
  destruct (rest_shows_camera Linear512.gl linear512_keeps_uniform
              (clearedState 0)
              [frameInput noHand DEFAULT_PARAMS 0;
               frameInput noHand fastTallParams 1]
              (fun coord => linear512_cleared 0 coord) Hrest)
    as [Hzero Hpictures].
  split; [apply Hzero | apply Hpictures].
  repeat apply Forall_cons; try apply Forall_nil;
    (split; [reflexivity | discriminate]).
Defined.

(* ================================================================== *)
(** * The normal, the highlight and the camera samples *)
(* ================================================================== *)

Lemma normalize_unit (v : vec3) :
  0 < dot3 v v -> dot3 (normalize v) (normalize v) = 1.
Proof.
  intros Hpos.
  assert (length3 v * length3 v = dot3 v v) as Hsq
    by (unfold length3; apply sqrt_sqrt; lra).
  assert (0 < length3 v) as HL by (unfold length3; apply sqrt_lt_R0; exact Hpos).
  unfold normalize. set (L := length3 v) in *. clearbody L.
  unfold dot3 in *. cbn [x3 y3 z3].
  replace (x3 v / L * (x3 v / L) + y3 v / L * (y3 v / L) + z3 v / L * (z3 v / L))
    with ((x3 v * x3 v + y3 v * y3 v + z3 v * z3 v) / (L * L))
    by (field; lra).
  rewrite Hsq. field. lra.
Qed.

(** The vector the display shader normalises has a positive length. *)
Lemma slope_vector_positive (a b : R) : 0 < dot3 (Vec3 a b 1.0) (Vec3 a b 1.0).
Proof. unfold dot3. cbn [x3 y3 z3]. nra. Qed.

Lemma normal_unit (u : DisplayShader.uniforms sampler2D) (vUv : vec2) :
  dot3 (DisplayShader.normal u vUv) (DisplayShader.normal u vUv) = 1.
Proof.
  unfold DisplayShader.normal. apply normalize_unit. apply slope_vector_positive.
Qed.

Lemma normal_z_positive (u : DisplayShader.uniforms sampler2D) (vUv : vec2) :
  0 < z3 (DisplayShader.normal u vUv).
Proof.
  unfold DisplayShader.normal, normalize. cbn [z3].
  match goal with |- 0 < _ / length3 ?v => set (w := v) end.
  assert (0 < length3 w) as HL
    by (unfold length3; apply sqrt_lt_R0; apply slope_vector_positive).
  apply Rdiv_lt_0_compat; [lra | exact HL].
Qed.

Lemma normal_components (u : DisplayShader.uniforms sampler2D) (vUv : vec2) :
  -1 < x3 (DisplayShader.normal u vUv) < 1 /\
  -1 < y3 (DisplayShader.normal u vUv) < 1 /\
  0 < z3 (DisplayShader.normal u vUv) <= 1.
Proof.
  pose proof (normal_unit u vUv) as Hunit.
  pose proof (normal_z_positive u vUv) as Hz.
  unfold dot3 in Hunit.
  set (n := DisplayShader.normal u vUv) in *. clearbody n.
  assert (0 < z3 n * z3 n) by nra.
  repeat split; nra.
Qed.

(** The light direction is a unit vector too, so the light term is at
    most 1. *)
Lemma light_le_1 (u : DisplayShader.uniforms sampler2D) (vUv : vec2) :
  dot3 (DisplayShader.normal u vUv) (normalize (Vec3 0.5 0.5 1.0)) <= 1.
Proof.
  pose proof (normal_unit u vUv) as Hn.
  assert (dot3 (normalize (Vec3 0.5 0.5 1.0)) (normalize (Vec3 0.5 0.5 1.0)) = 1)
    as Hl by (apply normalize_unit; unfold dot3; cbn [x3 y3 z3]; lra).
  set (n := DisplayShader.normal u vUv) in *. clearbody n.
  set (l := normalize (Vec3 0.5 0.5 1.0)) in *. clearbody l.
  unfold dot3 in *.
  assert (0 <= (x3 n - x3 l) * (x3 n - x3 l) + (y3 n - y3 l) * (y3 n - y3 l)
               + (z3 n - z3 l) * (z3 n - z3 l))
    by (repeat apply Rplus_le_le_0_compat; apply Rle_0_sqr).
  lra.
Qed.

Lemma highlight_range (u : DisplayShader.uniforms sampler2D) (vUv : vec2) :
  0 <= DisplayShader.uReflection u ->
  x3 (DisplayShader.highlight u vUv) = y3 (DisplayShader.highlight u vUv) /\
  y3 (DisplayShader.highlight u vUv) = z3 (DisplayShader.highlight u vUv) /\
  0 <= x3 (DisplayShader.highlight u vUv) <= DisplayShader.uReflection u.
Proof.
  intros Hrefl. unfold DisplayShader.highlight, scale3. cbn [x3 y3 z3].
  pose proof (light_le_1 u vUv) as Hlight.
  set (light := dot3 _ _) in *. clearbody light.
  assert (0 <= max 0.0 light <= 1) as Hm.
  { unfold max. split.
    - apply Rle_trans with 0.0; [lra | apply Rmax_l].
    - apply Rmax_lub; lra. }
  assert (0 <= pow10 (max 0.0 light) <= 1) as Hp.
  { unfold pow10. split.
    - apply pow_le. apply Hm.
    - rewrite <- (pow1 10). apply pow_incr. exact Hm. }
  set (p := pow10 _) in *. clearbody p.
  repeat split; try reflexivity; nra.
Qed.

Lemma Rabs_le_bounds (x a : R) : Rabs x <= a -> - a <= x <= a.
Proof.
  intros H. pose proof (Rle_abs x) as H1. pose proof (Rle_abs (- x)) as H2.
  rewrite Rabs_Ropp in H2. lra.
Qed.

(** X10.  The normal is a unit vector that points up: its third component
    is positive and its first two lie strictly between -1 and 1.  So a
    pixel is displaced by less than [|refraction * distortion|] along each
    axis, and where the pixel is at least that far inside the band
    [0.001, 0.999] the bounds check changes nothing. *)
Theorem refraction_displacement :
  forall (u : DisplayShader.uniforms sampler2D) (vUv : vec2),
    let n := DisplayShader.normal u vUv in
    let k := DisplayShader.uRefraction u * DisplayShader.uDistortion u in
    dot3 n n = 1 /\
    -1 < x3 n < 1 /\ -1 < y3 n < 1 /\ 0 < z3 n <= 1 /\
    (0.001 + Rabs k <= x2 vUv <= 0.999 - Rabs k ->
     0.001 + Rabs k <= y2 vUv <= 0.999 - Rabs k ->
     DisplayShader.distortedUv u vUv
     = Vec2 (x2 vUv - x3 n * k) (y2 vUv - y3 n * k) /\
     Rabs (x2 (DisplayShader.distortedUv u vUv) - x2 vUv) <= Rabs k /\
     Rabs (y2 (DisplayShader.distortedUv u vUv) - y2 vUv) <= Rabs k).
Proof.
  intros u vUv. cbv zeta.
  destruct (normal_components u vUv) as (Hx & Hy & Hz).
  split; [apply normal_unit | ].
  split; [exact Hx | split; [exact Hy | split; [exact Hz | ]]].
  intros Hbx Hby.
  set (n := DisplayShader.normal u vUv) in *.
  set (k := DisplayShader.uRefraction u * DisplayShader.uDistortion u) in *.
  assert (Rabs (x3 n * k) <= Rabs k) as Hdx.
  { rewrite Rabs_mult. pose proof (Rabs_pos k).
    assert (Rabs (x3 n) <= 1) by (apply Rabs_le; lra). nra. }
  assert (Rabs (y3 n * k) <= Rabs k) as Hdy.
  { rewrite Rabs_mult. pose proof (Rabs_pos k).
    assert (Rabs (y3 n) <= 1) by (apply Rabs_le; lra). nra. }
  assert (DisplayShader.distortedUv u vUv
          = Vec2 (x2 vUv - x3 n * k) (y2 vUv - y3 n * k)) as Heq.
  { unfold DisplayShader.distortedUv, clamp2, sub2, scale2, xy.
    fold n. cbn [x2 y2].
    replace (x3 n * DisplayShader.uRefraction u * DisplayShader.uDistortion u)
      with (x3 n * k) by (unfold k; ring).
    replace (y3 n * DisplayShader.uRefraction u * DisplayShader.uDistortion u)
      with (y3 n * k) by (unfold k; ring).
    apply Rabs_le_bounds in Hdx. apply Rabs_le_bounds in Hdy.
    rewrite !clamp_inside by lra. reflexivity. }
  split; [exact Heq | ].
  rewrite Heq. cbn [x2 y2].
  replace (x2 vUv - x3 n * k - x2 vUv) with (- (x3 n * k)) by ring.
  replace (y2 vUv - y3 n * k - y2 vUv) with (- (y3 n * k)) by ring.
  rewrite !Rabs_Ropp. split; assumption.
Qed.

Lemma refraction_displacement_witness :
  Rabs (x2 (DisplayShader.distortedUv (displayOnFlat 0.5 0) (Vec2 0.5 0.5)) - 0.5)
  <= Rabs (0.1 * 0.8).
Proof.
  destruct (refraction_displacement (displayOnFlat 0.5 0) (Vec2 0.5 0.5))
    as (_ & _ & _ & _ & Hd).
  cbn [displayOnFlat DisplayShader.uRefraction DisplayShader.uDistortion x2 y2]
    in Hd.
  assert (Rabs (0.1 * 0.8) = 0.1 * 0.8) as Habs by (apply Rabs_right; lra).
  destruct Hd as (_ & Hx & _); [rewrite Habs; lra | rewrite Habs; lra | ].
  exact Hx.
Defined.

(** X11.  For a reflection parameter that is not negative the highlight is
    white and each of its components lies between 0 and the reflection
    parameter; so where the height is not negative the green channel of the
    output lies between that of the camera sample and that plus
    [reflection * height]. *)
Theorem highlight_bounded :
  forall (u : DisplayShader.uniforms sampler2D) (vUv : vec2),
    0 <= DisplayShader.uReflection u ->
    let hl := DisplayShader.highlight u vUv in
    x3 hl = y3 hl /\ y3 hl = z3 hl /\
    0 <= x3 hl <= DisplayShader.uReflection u /\
    (0 <= DisplayShader.height u vUv ->
     g4 (DisplayShader.camColor u vUv)
     <= g4 (DisplayShader.fragmentShader u vUv)
     <= g4 (DisplayShader.camColor u vUv)
        + DisplayShader.uReflection u * DisplayShader.height u vUv).
Proof.
  intros u vUv Hrefl. cbv zeta.
  destruct (highlight_range u vUv Hrefl) as (Hxy & Hyz & Hrange).
  split; [exact Hxy | split; [exact Hyz | split; [exact Hrange | ]]].
  intros Hh.
  destruct (display_channels u vUv) as (_ & _ & Hg & _). rewrite Hg.
  unfold DisplayShader.mixedColor, add3, scale3, rgb. cbn [x3 y3 z3].
  rewrite <- Hxy.
  set (p := x3 (DisplayShader.highlight u vUv)) in *. clearbody p.
  set (h := DisplayShader.height u vUv) in *. clearbody h.
  split; nra.
Qed.

Lemma highlight_bounded_witness :
  0 <= x3 (DisplayShader.highlight (displayOnFlat 0.5 0) (Vec2 0.5 0.5)) <= 0.5.
Proof.
  destruct (highlight_bounded (displayOnFlat 0.5 0) (Vec2 0.5 0.5))
    as (_ & _ & Hrange & _).
  - cbn. lra.
  - exact Hrange.
Defined.

(** X12.  Every coordinate at which the display shader samples the camera
    image has its second component in [0.001, 0.999] and its first in
    [-0.001, 1.001]: the samples of the chromatic aberration leave the
    image by at most 0.001, and only horizontally.  Where the height is at
    most 0.1 the single sample is the clamped one. *)
Theorem camera_fetches_near_bounds :
  forall (u : DisplayShader.uniforms sampler2D) (vUv : vec2),
    (forall coord, In coord (DisplayShader.cameraFetches u vUv) ->
       -0.001 <= x2 coord <= 1.001 /\ 0.001 <= y2 coord <= 0.999) /\
    (DisplayShader.height u vUv <= 0.1 ->
     DisplayShader.cameraFetches u vUv = [DisplayShader.distortedUv u vUv]).
Proof.
  intros u vUv.
  destruct (distortedUv_in_bounds u vUv) as [Hx Hy].
  unfold DisplayShader.cameraFetches.
  destruct (Rgt_dec (DisplayShader.height u vUv) 0.1) as [Hgt | Hle].
  - split; [ | intros Hh; lra].
    intros coord [<- | [<- | [<- | []]]];
      unfold DisplayShader.rCoord, DisplayShader.bCoord, add2, sub2;
      cbn [x2 y2]; lra.
  - split; [ | reflexivity].
    intros coord [<- | []]. lra.
Qed.

Lemma camera_fetches_near_bounds_witness :
  DisplayShader.cameraFetches (displayOnFlat 0 0) (Vec2 0.5 0.5)
  = [DisplayShader.distortedUv (displayOnFlat 0 0) (Vec2 0.5 0.5)].
Proof.
  apply (proj2 (camera_fetches_near_bounds (displayOnFlat 0 0) (Vec2 0.5 0.5))).
  unfold DisplayShader.height, texture2D. cbn. lra.
Defined.

(* ================================================================== *)
(** * The alternation of the targets *)
(* ================================================================== *)

Section ParityFacts.
Context {gl : WebGL}.

Lemma run_swap (inputs : list FrameInput) (s : State) :
  swap (fst (run s inputs)) = xorb (swap s) (Nat.odd (updates inputs)).
Proof.
  revert s. induction inputs as [ | i rest IH]; intros s.
  - cbn. destruct (swap s); reflexivity.
  - rewrite run_cons_state, IH, updates_cons.
    destruct (materials i) eqn:Hm.
    + rewrite useFrame_swap by exact Hm. rewrite Nat.odd_succ.
      rewrite <- Nat.negb_odd.
      destruct (swap s), (Nat.odd (updates rest)); reflexivity.
    + rewrite useFrame_idle by exact Hm. reflexivity.
Qed.

(** After at least one update the display reads the target the last
    update wrote, which is the target the next update reads. *)
Lemma run_uData (inputs : list FrameInput) (s : State) :
  (0 < updates inputs)%nat ->
  DisplayShader.uData (displayMaterial (fst (run s inputs)))
  = Some (FBOTexture (prevFBO (fst (run s inputs)))).
Proof.
  revert s. induction inputs as [ | i rest IH]; intros s Hpos.
  - cbn in Hpos. lia.
  - rewrite run_cons_state. rewrite updates_cons in Hpos.
    destruct (Nat.eq_dec (updates rest) 0) as [Hzero | Hmore].
    + assert (fst (run (useFrame s i) rest) = useFrame s i) as ->.
      { apply run_idle. unfold updates in Hzero.
        apply length_zero_iff_nil in Hzero.
        clear -Hzero. induction rest as [ | j rest IH]; [constructor | ].
        cbn [filter] in Hzero. destruct (materials j) eqn:Hj; [discriminate | ].
        constructor; [exact Hj | apply IH; exact Hzero]. }
      destruct (materials i) eqn:Hm; [ | lia].
      destruct (useFrame_uniforms s i Hm) as [_ ->].
      destruct (useFrame_roles s i Hm) as [-> _]. reflexivity.
    + apply IH. lia.
Qed.

End ParityFacts.

(** X13.  The targets alternate: after a run the ping-pong flag is the
    initial one flipped once per update, so from the initial state the next
    update reads [fboB] after an odd number of updates and [fboA] after an
    even number; and once an update has run, the display shader's [uData] is
    always the target the next update will read. *)
Theorem targets_alternate :
  forall (gl : WebGL) (s : State) (inputs : list FrameInput),
    swap (fst (run s inputs)) = xorb (swap s) (Nat.odd (updates inputs)) /\
    (swap s = false ->
     prevFBO (fst (run s inputs))
     = if Nat.odd (updates inputs) then fboB else fboA) /\
    ((0 < updates inputs)%nat ->
     DisplayShader.uData (displayMaterial (fst (run s inputs)))
     = Some (FBOTexture (prevFBO (fst (run s inputs))))).
Proof.
  intros gl s inputs. split; [apply run_swap | split].
  - intros Hs. unfold prevFBO. rewrite run_swap, Hs.
    destruct (Nat.odd (updates inputs)); reflexivity.
  - apply run_uData.
Qed.

Lemma targets_alternate_witness :
  let inputs :=
    [frameInput pinchCentre DEFAULT_PARAMS 0; idleInput;
     frameInput noHand DEFAULT_PARAMS 1; frameInput noHand DEFAULT_PARAMS 2] in
  prevFBO (fst (run (clearedState 0) inputs)) = fboB /\
  DisplayShader.uData (displayMaterial (fst (run (clearedState 0) inputs)))
  = Some (FBOTexture (prevFBO (fst (run (clearedState 0) inputs)))).
Proof.
  cbv zeta.
  destruct (targets_alternate Linear512.gl (clearedState 0)
              [frameInput pinchCentre DEFAULT_PARAMS 0; idleInput;
               frameInput noHand DEFAULT_PARAMS 1;
               frameInput noHand DEFAULT_PARAMS 2]) as (_ & Hprev & Hdata).
  split.
  - rewrite Hprev; reflexivity.
  - apply Hdata. cbn. lia.
Defined.

(* ================================================================== *)
(** * The audio service *)
(* ================================================================== *)

(** A start that opens a context, written out. *)
Lemma start_opens (newContext : nat) (s : AudioService.t) :
  AudioService.ctx s = None ->
  AudioService.start newContext s
  = {| AudioService.ctx := Some newContext;
       AudioService.masterGain :=
         Some {| AudioService.value := 0; AudioService.target := None |};
       AudioService.oscillators :=
         AudioService.oscillators s
         ++ map (fun freq =>
                   {| AudioService.context := newContext;
                      AudioService.frequency := freq;
                      AudioService.gain := 0.2 |}) AudioService.freqs;
       AudioService.lfo :=
         Some {| AudioService.context := newContext;
                 AudioService.frequency := 0.1;
                 AudioService.gain := 200 |};
       AudioService.filter :=
         Some {| AudioService.value := 400; AudioService.target := None |} |}.
Proof.
  intros Hctx. unfold AudioService.start. rewrite Hctx.
  unfold AudioService.freqs. cbn [fold_left map].
  unfold AudioService.addOscillator.
  cbn [AudioService.ctx AudioService.filter AudioService.oscillators
       AudioService.masterGain AudioService.lfo].
  rewrite <- !app_assoc. reflexivity.
Qed.

Lemma start_running (newContext : nat) (s : AudioService.t) :
  AudioService.ctx s <> None -> AudioService.start newContext s = s.
Proof.
  intros Hctx. unfold AudioService.start.
  destruct (AudioService.ctx s); [reflexivity | contradiction Hctx; reflexivity].
Qed.

Lemma updateVolume_closed (normalizedDepth : R) (s : AudioService.t) :
  AudioService.ctx s = None -> AudioService.updateVolume normalizedDepth s = s.
Proof.
  intros Hctx. unfold AudioService.updateVolume. rewrite Hctx.
  destruct (AudioService.masterGain s); reflexivity.
Qed.

Lemma stop_closes (s : AudioService.t) :
  AudioService.ctx (AudioService.stop s) = None.
Proof.
  unfold AudioService.stop.
  destruct (AudioService.ctx s) eqn:Hctx; [reflexivity | exact Hctx].
Qed.

Lemma targetVolume_range (normalizedDepth : R) :
  0 <= Rmin (Rmax normalizedDepth 0) 1 * 0.8 <= 0.8.
Proof.
  assert (0 <= Rmin (Rmax normalizedDepth 0) 1 <= 1) as [H0 H1]
    by (split; [apply Rmin_glb; [apply Rmax_r | lra] | apply Rmin_r]).
  lra.
Qed.

Lemma targetVolume_inside (normalizedDepth : R) :
  0 <= normalizedDepth <= 1 ->
  Rmin (Rmax normalizedDepth 0) 1 * 0.8 = normalizedDepth * 0.8.
Proof.
  intros [H0 H1]. rewrite Rmax_left by exact H0.
  rewrite Rmin_left by exact H1. reflexivity.
Qed.

(** An update on a running service, written out. *)
Lemma updateVolume_running (normalizedDepth : R) (s : AudioService.t)
    (c : nat) (g f : AudioService.AudioParam) :
  AudioService.ctx s = Some c ->
  AudioService.masterGain s = Some g ->
  AudioService.filter s = Some f ->
  AudioService.updateVolume normalizedDepth s
  = {| AudioService.ctx := Some c;
       AudioService.masterGain :=
         Some {| AudioService.value := AudioService.value g;
                 AudioService.target :=
                   Some (Rmin (Rmax normalizedDepth 0) 1 * 0.8) |};
       AudioService.oscillators := AudioService.oscillators s;
       AudioService.lfo := AudioService.lfo s;
       AudioService.filter :=
         Some {| AudioService.value := AudioService.value f;
                 AudioService.target := Some (200 + normalizedDepth * 1000) |} |}.
Proof.
  intros Hctx Hg Hf. unfold AudioService.updateVolume.
  rewrite Hg, Hctx, Hf. reflexivity.
Qed.

Lemma perform_invariant (s : AudioService.t) (c : AudioService.call) :
  audioInvariant s -> audioInvariant (AudioService.perform s c).
Proof.
  intros Hinv. pose proof Hinv as (Hnodes & Hosc & Hvol).
  destruct c as [newContext | d | ]; cbn [AudioService.perform].
  - destruct (AudioService.ctx s) eqn:Hctx.
    + rewrite start_running by (rewrite Hctx; discriminate).
      exact Hinv.
    + rewrite start_opens by exact Hctx. unfold audioInvariant.
      cbn [AudioService.ctx AudioService.masterGain AudioService.filter
           AudioService.lfo AudioService.oscillators].
      split; [intros _; repeat split; discriminate | split].
      * apply Forall_app. split; [exact Hosc | ].
        unfold AudioService.freqs. cbn [map].
        repeat (apply Forall_cons;
                [split; [reflexivity | cbn [In AudioService.frequency]; auto 6] | ]).
        apply Forall_nil.
      * intros g v Hg Ht. inversion Hg; subst. cbn in Ht. discriminate.
  - destruct (AudioService.ctx s) as [c | ] eqn:Hctx.
    + destruct Hnodes as (Hg & Hf & Hl); [try rewrite Hctx; discriminate | ].
      destruct (AudioService.masterGain s) as [g | ] eqn:Hgain;
        [ | contradiction Hg; reflexivity].
      destruct (AudioService.filter s) as [f | ] eqn:Hfilter;
        [ | contradiction Hf; reflexivity].
      rewrite (updateVolume_running d s c g f Hctx Hgain Hfilter).
      unfold audioInvariant.
      cbn [AudioService.ctx AudioService.masterGain AudioService.filter
           AudioService.lfo AudioService.oscillators].
      split; [intros _; repeat split; try discriminate; exact Hl | split].
      * exact Hosc.
      * intros g' v Hg' Ht. inversion Hg'; subst. cbn in Ht.
        inversion Ht; subst. apply targetVolume_range.
    + rewrite updateVolume_closed by exact Hctx. exact Hinv.
  - unfold AudioService.stop.
    destruct (AudioService.ctx s) eqn:Hctx; [ | exact Hinv].
    unfold audioInvariant.
    cbn [AudioService.ctx AudioService.masterGain AudioService.filter
         AudioService.lfo AudioService.oscillators].
    split; [intros H; contradiction H; reflexivity | split; assumption].
Qed.

Lemma create_invariant : audioInvariant AudioService.create.
Proof.
  unfold audioInvariant, AudioService.create. cbn.
  split; [intros H; contradiction H; reflexivity | split].
  - constructor.
  - intros g v Hg. discriminate.
Qed.

Lemma audioRun_invariant (calls : list AudioService.call) (s : AudioService.t) :
  audioInvariant s -> audioInvariant (audioRun s calls).
Proof.
  revert s. induction calls as [ | c rest IH]; intros s Hs; [exact Hs | ].
  cbn. apply IH. apply perform_invariant. exact Hs.
Qed.

(** The oscillators only ever grow, by four per context opened. *)
Lemma audioRun_oscillators (calls : list AudioService.call) (s : AudioService.t) :
  exists more,
    AudioService.oscillators (audioRun s calls)
    = AudioService.oscillators s ++ more /\
    length more = (4 * AudioService.opened s calls)%nat.
Proof.
  revert s. induction calls as [ | c rest IH]; intros s.
  - exists []. cbn. rewrite app_nil_r. split; reflexivity.
  - cbn [audioRun fold_left AudioService.opened].
    destruct (IH (AudioService.perform s c)) as (more & Heq & Hlen).
    unfold audioRun in Heq. rewrite Heq.
    destruct c as [newContext | d | ]; cbn [AudioService.perform] in *.
    + destruct (AudioService.ctx s) eqn:Hctx.
      * rewrite start_running in * by (rewrite Hctx; discriminate).
        exists more. split; [reflexivity | lia].
      * rewrite start_opens in * by exact Hctx.
        cbn [AudioService.oscillators]. rewrite <- app_assoc.
        eexists. split; [reflexivity | ].
        rewrite length_app, length_map, Hlen.
        unfold AudioService.freqs. cbn [length]. lia.
    + exists more. split; [ | destruct (AudioService.ctx s); lia].
      f_equal. unfold AudioService.updateVolume.
      destruct (AudioService.masterGain s), (AudioService.ctx s),
        (AudioService.filter s); reflexivity.
    + exists more. split; [ | destruct (AudioService.ctx s); lia].
      f_equal. unfold AudioService.stop.
      destruct (AudioService.ctx s); reflexivity.
Qed.

(** X14.  In every state the service reaches from its creation,
    [updateVolume] does nothing while no context is open (before the first
    start and after a stop); while one is open it sets the volume target to
    the depth clamped to [0, 1] times 0.8, so to a value in [0, 0.8], and the
    filter target to [200 + 1000 * depth] with the depth as given, and
    leaves context and oscillators as they are. *)
Theorem volume_follows_depth :
  forall (calls : list AudioService.call) (normalizedDepth : R),
    let s := audioRun AudioService.create calls in
    let s' := AudioService.updateVolume normalizedDepth s in
    (AudioService.ctx s = None -> s' = s) /\
    (AudioService.ctx s <> None ->
     exists g f,
       AudioService.masterGain s' = Some g /\
       AudioService.filter s' = Some f /\
       AudioService.target g = Some (Rmin (Rmax normalizedDepth 0) 1 * 0.8) /\
       0 <= Rmin (Rmax normalizedDepth 0) 1 * 0.8 <= 0.8 /\
       (0 <= normalizedDepth <= 1 ->
        AudioService.target g = Some (normalizedDepth * 0.8)) /\
       AudioService.target f = Some (200 + normalizedDepth * 1000) /\
       AudioService.ctx s' = AudioService.ctx s /\
       AudioService.oscillators s' = AudioService.oscillators s).
Proof.
  intros calls d. cbv zeta.
  pose proof (audioRun_invariant calls AudioService.create create_invariant)
    as (Hnodes & _ & _).
  set (s := audioRun AudioService.create calls) in *. clearbody s.
  split; [apply updateVolume_closed | ].
  intros Hctx. destruct (Hnodes Hctx) as (Hg & Hf & _).
  destruct (AudioService.ctx s) as [c | ] eqn:Hc; [ | contradiction Hctx; reflexivity].
  destruct (AudioService.masterGain s) as [g | ] eqn:Hgain;
    [ | contradiction Hg; reflexivity].
  destruct (AudioService.filter s) as [f | ] eqn:Hfilter;
    [ | contradiction Hf; reflexivity].
  rewrite (updateVolume_running d s c g f Hc Hgain Hfilter).
  eexists. eexists.
  cbn [AudioService.ctx AudioService.masterGain AudioService.filter
       AudioService.oscillators AudioService.target].
  split; [reflexivity | ]. split; [reflexivity | ].
  cbn [AudioService.target].
  split; [reflexivity | ]. split; [apply targetVolume_range | ].
  split; [intros Hd; rewrite targetVolume_inside by exact Hd; reflexivity | ].
  repeat split; reflexivity.
Qed.

Lemma volume_follows_depth_witness :
  AudioService.updateVolume 0.5 (audioRun AudioService.create [AudioService.Stop])
  = audioRun AudioService.create [AudioService.Stop]
  /\
  exists g,
    AudioService.masterGain
      (AudioService.updateVolume 0.5
         (audioRun AudioService.create [AudioService.Start 0]))
    = Some g /\
    AudioService.target g = Some (0.5 * 0.8).
Proof.
  split.
  - apply (proj1 (volume_follows_depth [AudioService.Stop] 0.5)). reflexivity.
  - destruct (proj2 (volume_follows_depth [AudioService.Start 0%nat] 0.5))
      as (g & f & Hg & _ & _ & _ & Htarget & _).
    + cbn. discriminate.
    + exists g. split; [exact Hg | apply Htarget; lra].
Defined.

(** X15.  The oscillators are never removed: whatever is called, the list
    only grows, by the four notes of the chord for each context opened, and
    every oscillator in it plays one of those notes through a gain of 0.2.
    After start, stop and start again the service holds eight oscillators,
    the first four of them created by the context that was closed. *)
Theorem oscillators_accumulate :
  forall (calls : list AudioService.call),
    let s := audioRun AudioService.create calls in
    length (AudioService.oscillators s)
    = (4 * AudioService.opened AudioService.create calls)%nat /\
    Forall (fun o => AudioService.gain o = 0.2 /\
                     In (AudioService.frequency o) AudioService.freqs)
      (AudioService.oscillators s) /\
    (forall later, exists more,
       AudioService.oscillators (audioRun s later)
       = AudioService.oscillators s ++ more) /\
    (forall c1 c2 : nat,
       let s2 := audioRun AudioService.create
                   [AudioService.Start c1; AudioService.Stop; AudioService.Start c2] in
       AudioService.ctx s2 = Some c2 /\
       length (AudioService.oscillators s2) = 8%nat /\
       Forall (fun o => AudioService.context o = c1)
         (firstn 4 (AudioService.oscillators s2))).
Proof.
  intros calls. cbv zeta.
  split; [ | split; [ | split]].
  - destruct (audioRun_oscillators calls AudioService.create)
      as (more & Heq & Hlen).
    rewrite Heq. cbn [AudioService.create AudioService.oscillators app].
    exact Hlen.
  - apply (audioRun_invariant calls AudioService.create create_invariant).
  - intros later.
    destruct (audioRun_oscillators later (audioRun AudioService.create calls))
      as (more & Heq & _).
    exists more. exact Heq.
  - intros c1 c2. cbv zeta. unfold audioRun. cbn [fold_left AudioService.perform].
    rewrite (start_opens c1 AudioService.create) by reflexivity.
    unfold AudioService.stop at 1. cbn [AudioService.ctx].
    rewrite start_opens by reflexivity.
    cbn [AudioService.ctx AudioService.oscillators AudioService.create
         AudioService.masterGain AudioService.lfo AudioService.filter].
    unfold AudioService.freqs. cbn [map app length firstn].
    split; [reflexivity | split; [reflexivity | ]].
    repeat constructor.
Qed.

(* ================================================================== *)
(** * The application component *)
(* ================================================================== *)

Lemma fold_left_invariant {A B : Type} (f : A -> B -> A) (P : A -> Prop)
    (Q : B -> Prop) :
  (forall a b, P a -> Q b -> P (f a b)) ->
  forall (l : list B) (a : A), Forall Q l -> P a -> P (fold_left f l a).
Proof.
  intros Hstep l. induction l as [ | b rest IH]; intros a Hl Ha; [exact Ha | ].
  inversion Hl; subst. cbn. apply IH; [assumption | ].
  apply Hstep; assumption.
Qed.

Lemma Forall_True {B : Type} (l : list B) : Forall (fun _ => True) l.
Proof. induction l; constructor; auto. Qed.

Lemma updateVolume_ctx (normalizedDepth : R) (s : AudioService.t) :
  AudioService.ctx (AudioService.updateVolume normalizedDepth s)
  = AudioService.ctx s.
Proof.
  unfold AudioService.updateVolume.
  destruct (AudioService.masterGain s), (AudioService.ctx s) eqn:Hctx,
    (AudioService.filter s); cbn; congruence.
Qed.

(** What the sound button keeps true: the state says [PLAYING] exactly
    while the service has a context open. *)
Lemma handle_sound (s : App.state) (e : App.event) :
  (App.soundState s = PLAYING <-> AudioService.ctx (App.audioService s) <> None) ->
  (App.soundState (App.handle s e) = PLAYING
   <-> AudioService.ctx (App.audioService (App.handle s e)) <> None).
Proof.
  intros Hs. destruct e as [landmarks | newContext | slider value];
    cbn [App.handle].
  - unfold App.predicted. cbn [App.soundState App.audioService].
    destruct landmarks; rewrite updateVolume_ctx; exact Hs.
  - unfold App.toggleSound. destruct (App.soundState s) eqn:Hsound;
      cbn [App.soundState App.audioService].
    + assert (AudioService.ctx (App.audioService s) = None) as Hctx.
      { destruct (AudioService.ctx (App.audioService s)); [ | reflexivity].
        assert (MUTED = PLAYING) by (apply Hs; discriminate). discriminate. }
      rewrite start_opens by exact Hctx. cbn [AudioService.ctx].
      split; [discriminate | reflexivity].
    + rewrite stop_closes. split; [discriminate | intros H; contradiction H; reflexivity].
  - exact Hs.
Qed.

Lemma handle_audio (s : App.state) (e : App.event) :
  audioInvariant (App.audioService s) ->
  audioInvariant (App.audioService (App.handle s e)).
Proof.
  intros Hs. destruct e as [landmarks | newContext | slider value];
    cbn [App.handle].
  - unfold App.predicted. cbn [App.audioService].
    destruct landmarks as [ | hand rest].
    + apply (perform_invariant _ (AudioService.UpdateVolume 0) Hs).
    + apply (perform_invariant _
               (AudioService.UpdateVolume (distance (detectedStatus hand))) Hs).
  - unfold App.toggleSound. destruct (App.soundState s); cbn [App.audioService].
    + apply (perform_invariant _ (AudioService.Start newContext) Hs).
    + apply (perform_invariant _ AudioService.Stop Hs).
  - exact Hs.
Qed.

Lemma handle_published (s : App.state) (e : App.event) :
  published (App.handStatus s) -> published (App.handStatus (App.handle s e)).
Proof.
  intros Hs. destruct e as [landmarks | newContext | slider value];
    cbn [App.handle].
  - unfold App.predicted. cbn [App.handStatus]. apply published_predict. exact Hs.
  - unfold App.toggleSound. destruct (App.soundState s); exact Hs.
  - exact Hs.
Qed.

Lemma handle_fixed_params (s : App.state) (e : App.event) :
  speed (App.params (App.handle s e)) = speed (App.params s) /\
  waveHeight (App.params (App.handle s e)) = waveHeight (App.params s).
Proof.
  destruct e as [landmarks | newContext | slider value]; cbn [App.handle].
  - split; reflexivity.
  - unfold App.toggleSound. destruct (App.soundState s); split; reflexivity.
  - destruct slider; split; reflexivity.
Qed.

Lemma handle_ranges (s : App.state) (e : App.event) :
  paramsInSliderRanges (App.params s) -> App.inRange e ->
  paramsInSliderRanges (App.params (App.handle s e)).
Proof.
  intros Hs He. destruct e as [landmarks | newContext | slider value];
    cbn [App.handle].
  - exact Hs.
  - unfold App.toggleSound. destruct (App.soundState s); exact Hs.
  - cbn [App.inRange] in He. intros c. specialize (Hs c).
    unfold App.sliderChanged. cbn [App.params].
    destruct slider, c; cbn in *; lra.
Qed.

Lemma default_params_in_ranges : paramsInSliderRanges DEFAULT_PARAMS.
Proof. intros c. destruct c; cbn; lra. Qed.

Lemma sound_invariants (events : list App.event) :
  (App.soundState (App.after events) = PLAYING
   <-> AudioService.ctx (App.audioService (App.after events)) <> None) /\
  audioInvariant (App.audioService (App.after events)).
Proof.
  unfold App.after. split.
  - apply (fold_left_invariant App.handle
             (fun s => App.soundState s = PLAYING
                       <-> AudioService.ctx (App.audioService s) <> None)
             (fun _ => True)).
    + intros s e Hs _. apply handle_sound. exact Hs.
    + apply Forall_True.
    + cbn. split; [discriminate | intros H; contradiction H; reflexivity].
  - apply (fold_left_invariant App.handle
             (fun s => audioInvariant (App.audioService s)) (fun _ => True)).
    + intros s e Hs _. apply handle_audio. exact Hs.
    + apply Forall_True.
    + apply create_invariant.
Qed.

(** X16.  After every sequence of events the sound state is [PLAYING]
    exactly when the audio service has a context open, and the service is
    well formed: with a context open its gain, filter and LFO exist, and a
    volume target lies in [0, 0.8]. *)
Theorem sound_button_tracks_context :
  forall events : list App.event,
    let s := App.after events in
    (App.soundState s = PLAYING
     <-> AudioService.ctx (App.audioService s) <> None) /\
    audioInvariant (App.audioService s).
Proof.
  intros events. cbv zeta. apply sound_invariants.
Qed.

Lemma sound_button_tracks_context_witness :
  AudioService.ctx
    (App.audioService
       (App.after [App.SoundToggled 0; App.Predicted [closedHand]]))
  <> None.
Proof.
  apply (proj1 (proj1 (sound_button_tracks_context
                         [App.SoundToggled 0%nat; App.Predicted [closedHand]]))).
  reflexivity.
Defined.

(** X1.  The hand status the component holds after any sequence of events
    pinches only if it is detected and has a depth proxy in [0, 1]; so when
    it is not detected the simulation gets the sentinel position (-1, -1)
    and force 0. *)
Theorem reachable_hand_status :
  forall events : list App.event,
    let h := App.handStatus (App.after events) in
    (pinching h = true -> detected h = true) /\
    0 <= distance h <= 1 /\
    (detected h = false -> mouseX h = -1 /\ mouseY h = -1 /\ force h = 0).
Proof.
  intros events. cbv zeta.
  assert (published (App.handStatus (App.after events))) as Hpub.
  { unfold App.after.
    apply (fold_left_invariant App.handle
             (fun s => published (App.handStatus s)) (fun _ => True)).
    - intros s e Hs _. apply handle_published. exact Hs.
    - apply Forall_True.
    - apply published_initial. }
  set (h := App.handStatus (App.after events)) in *. clearbody h.
  split; [apply published_pinch_detected; exact Hpub | ].
  split; [apply published_depth_range; exact Hpub | ].
  intros Hd. unfold mouseX, mouseY, force. rewrite Hd.
  destruct (pinching h) eqn:Hp.
  - rewrite (published_pinch_detected h Hpub Hp) in Hd. discriminate.
  - repeat split; lra.
Qed.

Lemma reachable_hand_status_witness :
  force (App.handStatus (App.after [App.Predicted [closedHand]; App.Predicted []]))
  = 0.
Proof.
  destruct (reachable_hand_status [App.Predicted [closedHand]; App.Predicted []])
    as (_ & _ & Hlost).
  apply Hlost. reflexivity.
Defined.

Lemma detectedStatus_depth (hand : nat -> landmark.t) :
  0 <= distance (detectedStatus hand) <= 1.
Proof.
  cbn [detectedStatus distance]. split.
  - apply Rmin_glb; [apply Rmax_r | lra].
  - apply Rmin_r.
Qed.

(** X17.  A round of [predict] in a component that is reachable and
    [PLAYING] sets the volume target to 0.8 times the depth proxy of the new
    hand status and the filter target to 200 plus 1000 times it, so to a
    frequency in [200, 1200]; without a hand these are 0 and 200.  While the
    component is [MUTED] the round leaves the audio service as it is. *)
Theorem predicted_volume :
  forall (events : list App.event) (landmarks : list (nat -> landmark.t)),
    let s := App.after events in
    let s' := App.handle s (App.Predicted landmarks) in
    let depth :=
      match landmarks with
      | hand :: _ => distance (App.handStatus s')
      | [] => 0
      end in
    (App.soundState s = MUTED -> App.audioService s' = App.audioService s) /\
    (App.soundState s = PLAYING ->
     exists g f,
       AudioService.masterGain (App.audioService s') = Some g /\
       AudioService.filter (App.audioService s') = Some f /\
       AudioService.target g = Some (depth * 0.8) /\
       AudioService.target f = Some (200 + depth * 1000) /\
       200 <= 200 + depth * 1000 <= 1200).
Proof.
  intros events landmarks. cbv zeta.
  destruct (sound_invariants events) as (Hsound & Hnodes & _ & _).
  set (s := App.after events) in *. clearbody s.
  cbn [App.handle]. unfold App.predicted. cbn [App.audioService App.handStatus].
  split.
  - intros Hmuted.
    assert (AudioService.ctx (App.audioService s) = None) as Hctx.
    { destruct (AudioService.ctx (App.audioService s)); [ | reflexivity].
      assert (App.soundState s = PLAYING) as Hp by (apply Hsound; discriminate).
      rewrite Hmuted in Hp. discriminate. }
    destruct landmarks; apply updateVolume_closed; exact Hctx.
  - intros Hplaying.
    assert (AudioService.ctx (App.audioService s) <> None) as Hctx
      by (apply Hsound; exact Hplaying).
    destruct (Hnodes Hctx) as (Hg & Hf & _).
    destruct (AudioService.ctx (App.audioService s)) as [c | ] eqn:Hc;
      [ | contradiction Hctx; reflexivity].
    destruct (AudioService.masterGain (App.audioService s)) as [g | ] eqn:Hgain;
      [ | contradiction Hg; reflexivity].
    destruct (AudioService.filter (App.audioService s)) as [f | ] eqn:Hfilter;
      [ | contradiction Hf; reflexivity].
    assert (forall d, 0 <= d <= 1 ->
              exists g' f',
                AudioService.masterGain
                  (AudioService.updateVolume d (App.audioService s)) = Some g' /\
                AudioService.filter
                  (AudioService.updateVolume d (App.audioService s)) = Some f' /\
                AudioService.target g' = Some (d * 0.8) /\
                AudioService.target f' = Some (200 + d * 1000) /\
                200 <= 200 + d * 1000 <= 1200) as Hupdate.
    { intros d Hd.
      rewrite (updateVolume_running d _ c g f Hc Hgain Hfilter).
      eexists. eexists.
      cbn [AudioService.masterGain AudioService.filter].
      split; [reflexivity | ]. split; [reflexivity | ].
      cbn [AudioService.target].
      rewrite targetVolume_inside by exact Hd.
      split; [reflexivity | ]. split; [reflexivity | lra]. }
    destruct landmarks as [ | hand rest]; cbn [predict].
    + apply Hupdate. lra.
    + apply Hupdate. apply detectedStatus_depth.
Qed.

Lemma predicted_volume_witness :
  App.audioService (App.handle (App.after []) (App.Predicted [openHand]))
  = App.audioService (App.after [])
  /\
  exists f,
    AudioService.filter
      (App.audioService
         (App.handle (App.after [App.SoundToggled 0]) (App.Predicted [])))
    = Some f /\
    AudioService.target f = Some (200 + 0 * 1000).
Proof.
  split.
  - apply (proj1 (predicted_volume [] [openHand])). reflexivity.
  - destruct (proj2 (predicted_volume [App.SoundToggled 0%nat] []))
      as (g & f & _ & Hf & _ & Htarget & _).
    + reflexivity.
    + exists f. split; [exact Hf | exact Htarget].
Defined.


(** X19.  No sequence of events changes [speed] or [waveHeight]: the panel
    has no slider for them, so they stay at their defaults 1.0 and 0.5.
    When every slider value lies between the slider's [min] and [max], the
    five other parameters stay within those ranges, in particular the
    viscosity in [0.9, 0.995] and the ripple strength in [0.1, 2]. *)
Theorem panel_parameters :
  forall events : list App.event,
    let p := App.params (App.after events) in
    speed p = 1.0 /\ waveHeight p = 0.5 /\
    (Forall App.inRange events ->
     paramsInSliderRanges p /\
     0.90 <= viscosity p <= 0.995 /\ 0.1 <= rippleStrength p <= 2.0).
Proof.
  intros events. cbv zeta.
  assert (speed (App.params (App.after events)) = 1.0 /\
          waveHeight (App.params (App.after events)) = 0.5) as [Hspeed Hwave].
  { unfold App.after.
    apply (fold_left_invariant App.handle
             (fun s => speed (App.params s) = 1.0 /\
                       waveHeight (App.params s) = 0.5) (fun _ => True)).
    - intros s e [Hs Hw] _. destruct (handle_fixed_params s e) as [-> ->].
      split; assumption.
    - apply Forall_True.
    - split; reflexivity. }
  split; [exact Hspeed | split; [exact Hwave | ]].
  intros Hin.
  assert (paramsInSliderRanges (App.params (App.after events))) as Hranges.
  { unfold App.after.
    apply (fold_left_invariant App.handle
             (fun s => paramsInSliderRanges (App.params s)) App.inRange).
    - intros s e Hs He. apply handle_ranges; assumption.
    - exact Hin.
    - apply default_params_in_ranges. }
  split; [exact Hranges | ].
  split; [apply (Hranges ViscositySlider) | apply (Hranges RippleStrengthSlider)].
Qed.

Lemma panel_parameters_witness :
  0.90 <= viscosity
            (App.params
               (App.after [App.SliderChanged ViscositySlider 0.99;
                           App.SliderChanged RippleStrengthSlider 2]))
       <= 0.995.
Proof.
  destruct (panel_parameters [App.SliderChanged ViscositySlider 0.99;
                              App.SliderChanged RippleStrengthSlider 2])
    as (_ & _ & Hranges).
  destruct Hranges as (_ & Hvisc & _); [ | exact Hvisc].
  repeat apply Forall_cons; try apply Forall_nil; cbn; lra.
Defined.

(* ================================================================== *)
(** * A whole session *)
(* ================================================================== *)

Section SessionFacts.
Context {gl : WebGL}.

Lemma act_invariant (Hpos : keeps_nonneg gl) (Hbound : keeps_bound gl)
    (w : App.state * State) (a : action) :
  paramsInSliderRanges (App.params (fst w)) /\
  (forall f coord,
     0 <= r4 (sampler (texture (snd w) f) coord) <= fieldBound 2 0.995) ->
  actionInRange a ->
  paramsInSliderRanges (App.params (fst (act w a))) /\
  (forall f coord,
     0 <= r4 (sampler (texture (snd (act w a)) f) coord) <= fieldBound 2 0.995).
Proof.
  intros [Hranges Hfield] Ha. destruct a as [e | materials video elapsed];
    cbn [act fst snd].
  - split; [apply handle_ranges; assumption | exact Hfield].
  - split; [exact Hranges | ].
    pose proof (Hranges ViscositySlider) as Hv.
    pose proof (Hranges RippleStrengthSlider) as Hk.
    cbn in Hv, Hk.
    apply (useFrame_bounded Hpos Hbound 2 0.995).
    + lra.
    + cbn. lra.
    + cbn. lra.
    + exact Hfield.
Qed.

End SessionFacts.

(** X20.  Through a whole session, events of the component and ticks of
    the frame loop in any order, with every slider value inside its slider's
    range and both targets 0 at the start, the field stays between 0 and 398
    in both targets. *)
Theorem session_field_bounded :
  forall (gl : WebGL), keeps_nonneg gl -> keeps_bound gl ->
  forall (a b : Texture) (actions : list action),
    (forall coord, r4 (sampler a coord) = 0) ->
    (forall coord, r4 (sampler b coord) = 0) ->
    Forall actionInRange actions ->
    forall f coord,
      0 <= r4 (sampler (texture (snd (session a b actions)) f) coord) <= 398.
Proof.
  intros gl Hpos Hbound a b actions Ha Hb Hin.
  assert (fieldBound 2 0.995 = 398) as HB by (unfold fieldBound; lra).
  rewrite <- HB. unfold session.
  apply (fold_left_invariant act
           (fun w => paramsInSliderRanges (App.params (fst w)) /\
                     (forall f coord,
                        0 <= r4 (sampler (texture (snd w) f) coord)
                          <= fieldBound 2 0.995))
           actionInRange).
  - intros w act' Hw Hact. apply (act_invariant Hpos Hbound w act' Hw Hact).
  - exact Hin.
  - cbn [fst snd]. split; [apply default_params_in_ranges | ].
    intros f coord. rewrite HB.
    destruct f; cbn [initialState texture]; [rewrite Ha | rewrite Hb]; lra.
Qed.

Lemma session_field_bounded_witness :
  0 <= r4 (Linear512.sampler
             (texture
                (snd (@session Linear512.gl (Linear512.cleared 0)
                        (Linear512.cleared 0)
                        [Event (App.Predicted [closedHand]);
                         Tick true None 0;
                         Event (App.SliderChanged RippleStrengthSlider 2);
                         Tick true None 1]))
                fboB)
             (Vec2 0.5 0.5))
    <= 398.
Proof.
  apply (session_field_bounded Linear512.gl linear512_keeps_nonneg
           linear512_keeps_bound (Linear512.cleared 0) (Linear512.cleared 0)).
  - intros coord. apply linear512_cleared.
  - intros coord. apply linear512_cleared.
  - repeat apply Forall_cons; try apply Forall_nil; cbn; try exact I; lra.
Defined.
